(** * moodmorph.evals: the evaluation driver and its SQLite adapter

    A shallow embedding of [local/db_manager.py] (class [DBManager]) and
    [local/llm_captures_evaluator.py] (class [LLMCapturesEvaluator], the
    prompt and the output schema), followed by the properties of the
    evaluation-and-persistence data flow.

    Python objects are mutated in place and keep their mutations when an
    exception unwinds the stack, so every operation is a function from a
    state to an outcome (a value or a raised exception) paired with the
    state reached at that point. *)

From Stdlib Require Import List String Ascii ZArith NArith Bool Lia DecimalString.
Import ListNotations.
Local Open Scope string_scope.
Local Open Scope Z_scope.

(* ===================================================================== *)
(** * Exceptions and the state-and-exception monad                        *)
(* ===================================================================== *)

(** The exception classes that the two modules can let escape. None of
    them is defined by the repository: they come from the interpreter, from
    [json], [sqlite3] and [pandas], or from the completion client. *)
Inductive PyExc : Type :=
| KeyError (key : string)
| TypeError (msg : string)
| IndexError (msg : string)
| ValueError (msg : string)
| FileNotFoundError (path : string)
| PermissionError (path : string)
| IsADirectoryError (path : string)
| JSONDecodeError (doc : string)
| OperationalError (msg : string)    (* sqlite3.OperationalError *)
| InterfaceError (msg : string)      (* sqlite3: a parameter of unsupported type
                                        (ProgrammingError from Python 3.11 on) *)
| DatabaseError (msg : string)       (* pandas.errors.DatabaseError *)
| ClientError (cls : string) (msg : string). (* raised inside litellm.completion *)


Inductive Res (A : Type) : Type :=
| Ok (a : A)
| Raise (e : PyExc).
Arguments Ok {A} a.
Arguments Raise {A} e.

Definition M (St A : Type) : Type := St -> Res A * St.

Definition ret {St A} (a : A) : M St A := fun s => (Ok a, s).

Definition raise {St A} (e : PyExc) : M St A := fun s => (Raise e, s).

Definition bind {St A B} (m : M St A) (k : A -> M St B) : M St B :=
  fun s =>
    match m s with
    | (Ok a, s') => k a s'
    | (Raise e, s') => (Raise e, s')
    end.

Definition get {St} : M St St := fun s => (Ok s, s).

Definition modify {St} (f : St -> St) : M St unit := fun s => (Ok tt, f s).

(** Lifts a pure computation that may raise. *)
Definition lift {St A} (r : Res A) : M St A := fun s => (r, s).

Declare Scope py_scope.
Delimit Scope py_scope with py.
Notation "x <- m ;; k" := (bind m (fun x => k))
  (at level 61, m at next level, right associativity) : py_scope.
Notation "m ;;; k" := (bind m (fun _ => k))
  (at level 61, right associativity) : py_scope.

(** Pure binding on outcomes. *)
Definition rbind {A B} (r : Res A) (k : A -> Res B) : Res B :=
  match r with
  | Ok a => k a
  | Raise e => Raise e
  end.

Definition is_ok {A} (r : Res A) : bool :=
  match r with Ok _ => true | Raise _ => false end.

(* ===================================================================== *)
(** * JSON values and [json.loads]                                        *)
(* ===================================================================== *)

(** A decoded JSON document. An object is a Python [dict]: keys are
    unique and keep the position of their first insertion. A float keeps
    its literal. *)
#[warnings="-register-all"]
Inductive JSON : Type :=
| JNull
| JBool (b : bool)
| JInt (z : Z)
| JFloat (lit : string)
| JStr (s : string)
| JArr (items : list JSON)
| JObj (members : list (string * JSON)).

Definition dquote : ascii := "034"%char.
Definition backslash : ascii := "092"%char.

Definition is_ws (c : ascii) : bool :=
  match c with
  | " "%char | "009"%char | "010"%char | "013"%char => true
  | _ => false
  end.

Fixpoint skip_ws (cs : list ascii) : list ascii :=
  match cs with
  | c :: r => if is_ws c then skip_ws r else cs
  | [] => []
  end.

Definition is_digit (c : ascii) : bool :=
  let n := nat_of_ascii c in (48 <=? n)%nat && (n <=? 57)%nat.

Definition digit_val (c : ascii) : Z := Z.of_nat (nat_of_ascii c) - 48.

Definition hex_val (c : ascii) : option Z :=
  let n := Z.of_nat (nat_of_ascii c) in
  if (48 <=? n) && (n <=? 57) then Some (n - 48)
  else if (65 <=? n) && (n <=? 70) then Some (n - 55)
  else if (97 <=? n) && (n <=? 102) then Some (n - 87)
  else None.

Definition hex4 (cs : list ascii) : option (Z * list ascii) :=
  match cs with
  | a :: b :: c :: d :: r =>
      match hex_val a, hex_val b, hex_val c, hex_val d with
      | Some x, Some y, Some z, Some w =>
          Some (((x * 16 + y) * 16 + z) * 16 + w, r)
      | _, _, _, _ => None
      end
  | _ => None
  end.

Definition byte_of_Z (z : Z) : ascii := ascii_of_nat (Z.to_nat z).

(** The UTF-8 encoding of a code point: decoded text is kept as the bytes
    of its UTF-8 form, which is also how the document arrives. *)
Definition utf8 (cp : Z) : list ascii :=
  if cp <? 128 then [byte_of_Z cp]
  else if cp <? 2048 then
    [byte_of_Z (192 + cp / 64); byte_of_Z (128 + cp mod 64)]
  else if cp <? 65536 then
    [byte_of_Z (224 + cp / 4096); byte_of_Z (128 + (cp / 64) mod 64);
     byte_of_Z (128 + cp mod 64)]
  else
    [byte_of_Z (240 + cp / 262144); byte_of_Z (128 + (cp / 4096) mod 64);
     byte_of_Z (128 + (cp / 64) mod 64); byte_of_Z (128 + cp mod 64)].

(** [\uXXXX]: a high surrogate followed by an escaped low surrogate is one
    code point. *)
Definition unicode_escape (cs : list ascii) : option (list ascii * list ascii) :=
  match hex4 cs with
  | Some (hi, r) =>
      if (55296 <=? hi) && (hi <=? 56319) then
        match r with
        | b :: u :: r' =>
            if Ascii.eqb b backslash && Ascii.eqb u "u"%char then
              match hex4 r' with
              | Some (lo, r'') =>
                  if (56320 <=? lo) && (lo <=? 57343)
                  then Some (utf8 (65536 + (hi - 55296) * 1024 + (lo - 56320)), r'')
                  else Some (utf8 hi, r)
              | None => Some (utf8 hi, r)
              end
            else Some (utf8 hi, r)
        | _ => Some (utf8 hi, r)
        end
      else Some (utf8 hi, r)
  | None => None
  end.

(** The body of a string literal, after its opening quote. Control
    characters are refused (the decoder is strict). *)
Fixpoint scan_string (fuel : nat) (cs acc : list ascii)
  : option (string * list ascii) :=
  match fuel with
  | O => None
  | S fuel' =>
      match cs with
      | [] => None
      | c :: r =>
          if Ascii.eqb c dquote then
            Some (string_of_list_ascii (rev acc), r)
          else if Ascii.eqb c backslash then
            match r with
            | [] => None
            | e :: r' =>
                if Ascii.eqb e "u"%char then
                  match unicode_escape r' with
                  | Some (bs, r'') => scan_string fuel' r'' (rev bs ++ acc)
                  | None => None
                  end
                else
                  let simple (x : ascii) := scan_string fuel' r' (x :: acc) in
                  if Ascii.eqb e dquote then simple dquote
                  else if Ascii.eqb e backslash then simple backslash
                  else if Ascii.eqb e "/"%char then simple "/"%char
                  else if Ascii.eqb e "b"%char then simple "008"%char
                  else if Ascii.eqb e "f"%char then simple "012"%char
                  else if Ascii.eqb e "n"%char then simple "010"%char
                  else if Ascii.eqb e "r"%char then simple "013"%char
                  else if Ascii.eqb e "t"%char then simple "009"%char
                  else None
            end
          else if (nat_of_ascii c <? 32)%nat then None
          else scan_string fuel' r (c :: acc)
      end
  end.

Fixpoint take_digits (cs acc : list ascii) : list ascii * list ascii :=
  match cs with
  | c :: r => if is_digit c then take_digits r (c :: acc) else (rev acc, cs)
  | [] => (rev acc, [])
  end.

Definition digits_val (ds : list ascii) : Z :=
  fold_left (fun a c => a * 10 + digit_val c) ds 0.

(** The integer part of a number: [0] or a digit sequence that does not
    start with [0]. *)
Definition int_part (cs : list ascii) : option (list ascii * list ascii) :=
  match cs with
  | c :: r =>
      if Ascii.eqb c "0"%char then Some ([c], r)
      else if is_digit c then Some (take_digits cs [])
      else None
  | [] => None
  end.

Definition frac_part (cs : list ascii) : list ascii * list ascii :=
  match cs with
  | c :: r =>
      if Ascii.eqb c "."%char then
        match take_digits r [] with
        | ([], _) => ([], cs)
        | (ds, r') => (c :: ds, r')
        end
      else ([], cs)
  | [] => ([], [])
  end.

Definition exp_part (cs : list ascii) : list ascii * list ascii :=
  match cs with
  | e :: r =>
      if Ascii.eqb e "e"%char || Ascii.eqb e "E"%char then
        let '(sign, r1) :=
          match r with
          | s :: r' =>
              if Ascii.eqb s "+"%char || Ascii.eqb s "-"%char
              then ([s], r') else ([], r)
          | [] => ([], r)
          end in
        match take_digits r1 [] with
        | ([], _) => ([], cs)
        | (ds, r2) => (e :: sign ++ ds, r2)
        end
      else ([], cs)
  | [] => ([], [])
  end.

(** A number: an integer when it has neither fraction nor exponent. *)
Definition scan_number (cs : list ascii) : option (JSON * list ascii) :=
  let '(neg, r0) :=
    match cs with
    | c :: r => if Ascii.eqb c "-"%char then (true, r) else (false, cs)
    | [] => (false, cs)
    end in
  match int_part r0 with
  | None => None
  | Some (ds, r1) =>
      let '(fr, r2) := frac_part r1 in
      let '(ex, r3) := exp_part r2 in
      match fr, ex with
      | [], [] =>
          Some (JInt (if neg then - digits_val ds else digits_val ds), r3)
      | _, _ =>
          Some (JFloat (string_of_list_ascii
                          ((if neg then ["-"%char] else []) ++ ds ++ fr ++ ex)),
                r3)
      end
  end.

Fixpoint strip_prefix (p cs : list ascii) : option (list ascii) :=
  match p, cs with
  | [], _ => Some cs
  | a :: p', c :: r => if Ascii.eqb a c then strip_prefix p' r else None
  | _ :: _, [] => None
  end.

Definition keywords : list (string * JSON) :=
  [("null", JNull); ("true", JBool true); ("false", JBool false);
   ("NaN", JFloat "NaN"); ("Infinity", JFloat "Infinity");
   ("-Infinity", JFloat "-Infinity")].

Fixpoint scan_keyword (kws : list (string * JSON)) (cs : list ascii)
  : option (JSON * list ascii) :=
  match kws with
  | [] => None
  | (k, v) :: kws' =>
      match strip_prefix (list_ascii_of_string k) cs with
      | Some r => Some (v, r)
      | None => scan_keyword kws' cs
      end
  end.

(** [d[k] = v] on a dict. *)
Fixpoint dict_set (k : string) (v : JSON) (d : list (string * JSON))
  : list (string * JSON) :=
  match d with
  | [] => [(k, v)]
  | (k', v') :: d' =>
      if String.eqb k k' then (k, v) :: d' else (k', v') :: dict_set k v d'
  end.

Fixpoint dict_get (k : string) (d : list (string * JSON)) : option JSON :=
  match d with
  | [] => None
  | (k', v) :: d' => if String.eqb k k' then Some v else dict_get k d'
  end.

Section Containers.
(** The decoder of one value, used for the items of an array and the
    values of an object. *)
Variable value : list ascii -> option (JSON * list ascii).

(** After [[] and a first non-[]] character. *)
Fixpoint scan_items (fuel : nat) (cs : list ascii) (acc : list JSON)
  : option (JSON * list ascii) :=
  match fuel with
  | O => None
  | S fuel' =>
      match value cs with
      | None => None
      | Some (v, r) =>
          match skip_ws r with
          | c :: r' =>
              if Ascii.eqb c "]"%char then Some (JArr (rev (v :: acc)), r')
              else if Ascii.eqb c ","%char
              then scan_items fuel' (skip_ws r') (v :: acc)
              else None
          | [] => None
          end
      end
  end.

(** After [{] and white space; every member starts with a quoted key. *)
Fixpoint scan_members (fuel : nat) (cs : list ascii)
  (acc : list (string * JSON)) : option (JSON * list ascii) :=
  match fuel with
  | O => None
  | S fuel' =>
      match cs with
      | q :: r0 =>
          if Ascii.eqb q dquote then
            match scan_string (S (List.length r0)) r0 [] with
            | None => None
            | Some (k, r1) =>
                match skip_ws r1 with
                | colon :: r2 =>
                    if Ascii.eqb colon ":"%char then
                      match value (skip_ws r2) with
                      | None => None
                      | Some (v, r3) =>
                          let acc' := dict_set k v acc in
                          match skip_ws r3 with
                          | c :: r4 =>
                              if Ascii.eqb c "}"%char then Some (JObj acc', r4)
                              else if Ascii.eqb c ","%char
                              then scan_members fuel' (skip_ws r4) acc'
                              else None
                          | [] => None
                          end
                      end
                    else None
                | [] => None
                end
            end
          else None
      | [] => None
      end
  end.
End Containers.

(** One value at the head of [cs] (no leading white space). *)
Fixpoint scan_value (fuel : nat) (cs : list ascii) : option (JSON * list ascii) :=
  match fuel with
  | O => None
  | S fuel' =>
      match cs with
      | [] => None
      | c :: r =>
          if Ascii.eqb c dquote then
            match scan_string (S (List.length r)) r [] with
            | Some (s, r') => Some (JStr s, r')
            | None => None
            end
          else if Ascii.eqb c "{"%char then
            match skip_ws r with
            | c' :: r' =>
                if Ascii.eqb c' "}"%char then Some (JObj [], r')
                else scan_members (scan_value fuel') (S (List.length r)) (c' :: r') []
            | [] => None
            end
          else if Ascii.eqb c "["%char then
            match skip_ws r with
            | c' :: r' =>
                if Ascii.eqb c' "]"%char then Some (JArr [], r')
                else scan_items (scan_value fuel') (S (List.length r)) (c' :: r') []
            | [] => None
            end
          else
            match scan_keyword keywords cs with
            | Some res => Some res
            | None => scan_number cs
            end
      end
  end.

(** [json.loads(s)]: one value, white space allowed around it, nothing
    else after it. *)
Definition json_loads (s : string) : Res JSON :=
  let cs := list_ascii_of_string s in
  match scan_value (S (List.length cs)) (skip_ws cs) with
  | Some (v, r) =>
      match skip_ws r with
      | [] => Ok v
      | _ :: _ => Raise (JSONDecodeError s)
      end
  | None => Raise (JSONDecodeError s)
  end.

(** [response[key]] on a decoded document: only a dict can be indexed by
    a string. *)
Definition json_getitem (j : JSON) (key : string) : Res JSON :=
  match j with
  | JObj d =>
      match dict_get key d with
      | Some v => Ok v
      | None => Raise (KeyError key)
      end
  | JArr _ => Raise (TypeError "list indices must be integers or slices, not str")
  | JStr _ => Raise (TypeError "string indices must be integers, not 'str'")
  | JNull | JBool _ | JInt _ | JFloat _ =>
      Raise (TypeError "object is not subscriptable")
  end.

(* ===================================================================== *)
(** * [base64.b64encode]                                                  *)
(* ===================================================================== *)

Definition b64_alphabet : list ascii :=
  list_ascii_of_string
    "ABCDEFGHIJKLMNOPQRSTUVWXYZabcdefghijklmnopqrstuvwxyz0123456789+/".

Definition b64_digit (n : Z) : ascii :=
  nth (Z.to_nat (n mod 64)) b64_alphabet "="%char.

Definition byte_val (c : ascii) : Z := Z.of_nat (nat_of_ascii c).

Fixpoint b64_groups (bs : list ascii) : list ascii :=
  match bs with
  | [] => []
  | [a] =>
      let n := byte_val a * 65536 in
      [b64_digit (n / 262144); b64_digit (n / 4096); "="%char; "="%char]
  | [a; b] =>
      let n := byte_val a * 65536 + byte_val b * 256 in
      [b64_digit (n / 262144); b64_digit (n / 4096); b64_digit (n / 64);
       "="%char]
  | a :: b :: c :: r =>
      let n := byte_val a * 65536 + byte_val b * 256 + byte_val c in
      b64_digit (n / 262144) :: b64_digit (n / 4096) :: b64_digit (n / 64)
        :: b64_digit n :: b64_groups r
  end.

(** [base64.b64encode(data).decode('utf-8')]: the output is ASCII. *)
Definition b64encode (data : string) : string :=
  string_of_list_ascii (b64_groups (list_ascii_of_string data)).

(* ===================================================================== *)
(** * [pandas.DataFrame]                                                  *)
(* ===================================================================== *)

(** A value held in a cell or used as a row label. [NA] is the missing
    value ([NaN], [None] or [NaT], which pandas treats alike); [CTime t]
    is a point in time, [t] nanoseconds after the epoch; [CObj] is any
    other Python object (here: what [json.loads] can return). *)
Inductive Cell : Type :=
| NA
| CStr (s : string)
| CInt (z : Z)
| CTime (t : Z)
| CObj (j : JSON).

(** Of a column's dtype the model keeps what the code acts on: whether the
    column is [datetime64[ns]] or not ([Dobject] stands for [object], the
    dtype of every column of [pd.DataFrame(columns=...)], and for the
    non-temporal dtypes pandas infers when it reads a table). *)
Inductive Dtype : Type :=
| Dobject
| Ddatetime64ns.

(** A frame: the name of its index, its columns in order, and its rows in
    order, each a label with one cell per column. *)
Record DataFrame : Type := mkDataFrame {
  index_name : option string;
  columns : list (string * Dtype);
  rows : list (Cell * list Cell)
}.

(** A row taken out of a frame ([pd.Series]): cells by column name. *)
Definition Series : Type := list (string * Cell).

Definition repr_int (z : Z) : string := NilZero.string_of_int (Z.to_int z).

Definition repr_label (l : Cell) : string :=
  match l with
  | NA => "nan"
  | CStr s => s
  | CInt z => repr_int z
  | CTime t => repr_int t
  | CObj _ => "object"
  end.

Definition label_eqb (a b : Cell) : bool :=
  match a, b with
  | CStr s, CStr s' => String.eqb s s'
  | CInt z, CInt z' => Z.eqb z z'
  | CTime t, CTime t' => Z.eqb t t'
  | _, _ => false
  end.

(** [pd.DataFrame(columns=cols)]. *)
Definition new_frame (cols : list string) : DataFrame :=
  {| index_name := None;
     columns := map (fun c => (c, Dobject)) cols;
     rows := [] |}.

Definition column_names (df : DataFrame) : list string := map fst (columns df).

Definition labels (df : DataFrame) : list Cell := map fst (rows df).

Fixpoint position (col : string) (names : list string) : option nat :=
  match names with
  | [] => None
  | n :: names' =>
      if String.eqb col n then Some O
      else option_map S (position col names')
  end.

Definition has_label (l : Cell) (df : DataFrame) : bool :=
  existsb (fun r => label_eqb l (fst r)) (rows df).

(** [df.loc[l]] read: the row labelled [l]. The frames of this program
    have one row per label. *)
Definition loc (df : DataFrame) (l : Cell) : Res Series :=
  match find (fun r => label_eqb l (fst r)) (rows df) with
  | Some (_, cells) => Ok (combine (column_names df) cells)
  | None => Raise (KeyError (repr_label l))
  end.

(** [rec[col]] on a row. *)
Fixpoint series_getitem (rec : Series) (col : string) : Res Cell :=
  match rec with
  | [] => Raise (KeyError col)
  | (c, v) :: rec' => if String.eqb col c then Ok v else series_getitem rec' col
  end.

Fixpoint set_nth {A} (n : nat) (v : A) (l : list A) : list A :=
  match n, l with
  | _, [] => []
  | O, _ :: l' => v :: l'
  | S n', x :: l' => x :: set_nth n' v l'
  end.

Definition is_temporal (v : Cell) : bool :=
  match v with NA | CTime _ => true | _ => false end.

(** A [datetime64[ns]] column that receives a value which is not a time
    falls back to [object]. *)
Definition dtype_after (d : Dtype) (v : Cell) : Dtype :=
  match d with
  | Dobject => Dobject
  | Ddatetime64ns => if is_temporal v then Ddatetime64ns else Dobject
  end.

(** Setting with enlargement, rows: a label that is absent gets a new
    last row, every cell missing. *)
Definition enlarge_rows (df : DataFrame) (l : Cell) : DataFrame :=
  if has_label l df then df
  else {| index_name := index_name df;
          columns := columns df;
          rows := (rows df ++ [(l, map (fun _ => NA) (columns df))])%list |}.

(** Setting with enlargement, columns: a name that is absent gets a new
    last column, every cell missing. *)
Definition enlarge_columns (df : DataFrame) (col : string) : DataFrame :=
  match position col (column_names df) with
  | Some _ => df
  | None => {| index_name := index_name df;
               columns := (columns df ++ [(col, Dobject)])%list;
               rows := map (fun r => (fst r, (snd r ++ [NA])%list)) (rows df) |}
  end.

(** [df.loc[l, col] = v]. *)
Definition loc_setitem (df : DataFrame) (l : Cell) (col : string) (v : Cell)
  : DataFrame :=
  let df1 := enlarge_columns (enlarge_rows df l) col in
  match position col (column_names df1) with
  | None => df1
  | Some n =>
      {| index_name := index_name df1;
         columns := map (fun c => if String.eqb col (fst c)
                                  then (fst c, dtype_after (snd c) v) else c)
                        (columns df1);
         rows := map (fun r => if label_eqb l (fst r)
                               then (fst r, set_nth n v (snd r)) else r)
                     (rows df1) |}
  end.

(** [df[col]]: the cells of a column, with its dtype. *)
Definition getitem (df : DataFrame) (col : string) : Res (Dtype * list Cell) :=
  match position col (column_names df) with
  | None => Raise (KeyError col)
  | Some n =>
      Ok (nth n (map snd (columns df)) Dobject,
          map (fun r => nth n (snd r) NA) (rows df))
  end.

(** One value converted to [datetime64[ns]]: a missing value stays
    missing, a time stays, an integer counts nanoseconds from the epoch.
    Parsing of date text is not modelled: a string is refused. *)
Definition to_datetime64 (v : Cell) : Res Cell :=
  match v with
  | NA => Ok NA
  | CTime t => Ok (CTime t)
  | CInt n => Ok (CTime n)
  | CStr s => Raise (ValueError s)
  | CObj _ => Raise (TypeError "not convertible to datetime")
  end.

Fixpoint traverse {A B} (f : A -> Res B) (l : list A) : Res (list B) :=
  match l with
  | [] => Ok []
  | x :: l' => rbind (f x) (fun y => rbind (traverse f l') (fun ys => Ok (y :: ys)))
  end.

(** [series.astype('datetime64[ns]')]. *)
Definition astype_datetime64 (s : Dtype * list Cell) : Res (Dtype * list Cell) :=
  rbind (traverse to_datetime64 (snd s)) (fun vs => Ok (Ddatetime64ns, vs)).

Fixpoint zip_set (n : nat) (rs : list (Cell * list Cell)) (vs : list Cell)
  : list (Cell * list Cell) :=
  match rs, vs with
  | r :: rs', v :: vs' => (fst r, set_nth n v (snd r)) :: zip_set n rs' vs'
  | _, _ => rs
  end.

(** [df[col] = series] for a series that was taken from [df] itself, so
    that the rows line up. *)
Definition setitem (df : DataFrame) (col : string) (s : Dtype * list Cell)
  : DataFrame :=
  let df1 := enlarge_columns df col in
  match position col (column_names df1) with
  | None => df1
  | Some n =>
      {| index_name := index_name df1;
         columns := map (fun c => if String.eqb col (fst c)
                                  then (fst c, fst s) else c) (columns df1);
         rows := zip_set n (rows df1) (snd s) |}
  end.

Fixpoint range_from (start : Z) (n : nat) : list Cell :=
  match n with
  | O => []
  | S n' => CInt start :: range_from (start + 1) n'
  end.

(** [df.reset_index()]: a new frame whose first column holds the old
    labels, under the name of the index (or [index]), and whose rows are
    numbered from 0. The frame itself is left as it is. *)
Definition reset_index (df : DataFrame) : Res DataFrame :=
  let name := match index_name df with Some n => n | None => "index" end in
  match position name (column_names df) with
  | Some _ => Raise (ValueError ("cannot insert " ++ name ++ ", already exists"))
  | None =>
      Ok {| index_name := None;
            columns := (name, Dobject) :: columns df;
            rows := combine (range_from 0 (List.length (rows df)))
                            (map (fun r => fst r :: snd r) (rows df)) |}
  end.

Fixpoint remove_nth {A} (n : nat) (l : list A) : list A :=
  match n, l with
  | _, [] => []
  | O, _ :: l' => l'
  | S n', x :: l' => x :: remove_nth n' l'
  end.

(** [df.set_index(col, inplace=True)]. *)
Definition set_index (df : DataFrame) (col : string) : Res DataFrame :=
  match position col (column_names df) with
  | None => Raise (KeyError ("None of ['" ++ col ++ "'] are in the columns"))
  | Some n =>
      Ok {| index_name := Some col;
            columns := remove_nth n (columns df);
            rows := map (fun r => (nth n (snd r) NA, remove_nth n (snd r)))
                        (rows df) |}
  end.

(* ===================================================================== *)
(** * [sqlite3] and the pandas SQL bridge                                 *)
(* ===================================================================== *)

(** A stored value, by storage class. *)
Inductive SqlValue : Type :=
| SqlNull
| SqlInteger (z : Z)
| SqlReal (lit : string)
| SqlText (s : string).

Record SqlTable : Type := mkSqlTable {
  tcolumns : list string;
  trows : list (list SqlValue)
}.

(** The tables of one database file, in catalogue order. *)
Definition Database : Type := list (string * SqlTable).

(** What the program asks of [sqlite3] and of the pandas bridge, in the
    order it asks. [EvClose] is [Connection.close()]. *)
Inductive DbEvent : Type :=
| EvConnect (handle : nat) (path : string)
| EvToSql (handle : nat) (name if_exists : string) (index : bool)
| EvReadSql (handle : nat) (sql : string)
| EvExecute (handle : nat) (sql : string)
| EvCommit (handle : nat)
| EvRollback (handle : nat)
| EvClose (handle : nat).

(** The storage side of the world: which paths cannot be opened, the
    content of each database file (a file that is absent is an empty
    database and comes into being when written), the connections that
    have been opened and not closed, and the trace of requests.
    [other_sql] answers the queries that are outside the fragment the
    model executes itself. *)
Record Sqlite : Type := mkSqlite {
  unopenable : string -> bool;
  db_files : list (string * Database);
  other_sql : Database -> string -> string + SqlTable;
  open_conns : list (nat * string);
  next_handle : nat;
  trace : list DbEvent
}.

(** The storage with one more event in its trace. *)
Definition logged (e : DbEvent) (w : Sqlite) : Sqlite :=
  {| unopenable := unopenable w; db_files := db_files w;
     other_sql := other_sql w; open_conns := open_conns w;
     next_handle := next_handle w;
     trace := (trace w ++ [e])%list |}.

Definition log (e : DbEvent) : M Sqlite unit := modify (logged e).

Fixpoint assoc {A} (k : string) (l : list (string * A)) : option A :=
  match l with
  | [] => None
  | (k', v) :: l' => if String.eqb k k' then Some v else assoc k l'
  end.

Fixpoint assoc_set {A} (k : string) (v : A) (l : list (string * A))
  : list (string * A) :=
  match l with
  | [] => [(k, v)]
  | (k', v') :: l' =>
      if String.eqb k k' then (k, v) :: l' else (k', v') :: assoc_set k v l'
  end.

Definition database_at (w : Sqlite) (path : string) : Database :=
  match assoc path (db_files w) with Some d => d | None => [] end.

(** The storage with the database file at [path] holding [d]. *)
Definition written (path : string) (d : Database) (w : Sqlite) : Sqlite :=
  {| unopenable := unopenable w;
     db_files := assoc_set path d (db_files w);
     other_sql := other_sql w; open_conns := open_conns w;
     next_handle := next_handle w; trace := trace w |}.

Definition write_database (path : string) (d : Database) : M Sqlite unit :=
  modify (written path d).

(** A connection: its handle and the path it was opened on. *)
Definition Connection : Type := (nat * string)%type.

(** The storage with one more open connection, on [path]. *)
Definition opened (path : string) (w : Sqlite) : Sqlite :=
  {| unopenable := unopenable w; db_files := db_files w;
     other_sql := other_sql w;
     open_conns := (open_conns w ++ [(next_handle w, path)])%list;
     next_handle := S (next_handle w); trace := trace w |}.

(** [sqlite3.connect(path)]. *)
Definition connect (path : string) : M Sqlite Connection :=
  fun w =>
    let h := next_handle w in
    let w' := logged (EvConnect h path) w in
    if unopenable w path then
      (Raise (OperationalError "unable to open database file"), w')
    else (Ok (h, path), opened path w').

(** [conn.commit()]. *)
Definition commit (conn : Connection) : M Sqlite unit := log (EvCommit (fst conn)).

(** [conn.close()]. Neither module calls it. *)
Definition close (conn : Connection) : M Sqlite unit :=
  modify (fun w =>
            logged (EvClose (fst conn))
              {| unopenable := unopenable w; db_files := db_files w;
                 other_sql := other_sql w;
                 open_conns := filter (fun c => negb (Nat.eqb (fst c) (fst conn)))
                                      (open_conns w);
                 next_handle := next_handle w; trace := trace w |}).

(** [Connection.__exit__]: the transaction is committed when the block
    ended normally and rolled back when it raised; the exception goes on.
    The connection itself is left as it is. Every write of this program
    is committed inside the block or not made at all, so the roll back
    finds nothing to undo. *)
Definition connection_exit {A} (conn : Connection) (body : M Sqlite A)
  : M Sqlite A :=
  fun w =>
    match body w with
    | (Ok a, w') => (Ok a, logged (EvCommit (fst conn)) w')
    | (Raise e, w') => (Raise e, logged (EvRollback (fst conn)) w')
    end.

(** [with sqlite3.connect(path) as conn: body]. *)
Definition with_connection {A} (path : string) (body : Connection -> M Sqlite A)
  : M Sqlite A :=
  (conn <- connect path ;; connection_exit conn (body conn))%py.

(** ** Text of a time *)

Fixpoint pad_left (n : nat) (s : string) : string :=
  match n with
  | O => s
  | S n' => if (String.length s <? n)%nat then pad_left n' ("0" ++ s) else s
  end.

Definition digits (width : nat) (z : Z) : string := pad_left width (repr_int z).

(** The civil date of a day count from 1970-01-01. *)
Definition civil_from_days (days : Z) : Z * Z * Z :=
  let z := days + 719468 in
  let era := z / 146097 in
  let doe := z - era * 146097 in
  let yoe := (doe - doe / 1460 + doe / 36524 - doe / 146096) / 365 in
  let doy := doe - (365 * yoe + yoe / 4 - yoe / 100) in
  let mp := (5 * doy + 2) / 153 in
  let d := doy - (153 * mp + 2) / 5 + 1 in
  let m := if mp <? 10 then mp + 3 else mp - 9 in
  let y := yoe + era * 400 + (if m <=? 2 then 1 else 0) in
  (y, m, d).

(** [datetime.isoformat(' ')] of the time [t] (nanoseconds from the
    epoch) at the resolution of [datetime], microseconds. *)
Definition isoformat (t : Z) : string :=
  let us := t / 1000 in
  let secs := us / 1000000 in
  let frac := us mod 1000000 in
  let '(y, m, d) := civil_from_days (secs / 86400) in
  let sod := secs mod 86400 in
  digits 4 y ++ "-" ++ digits 2 m ++ "-" ++ digits 2 d ++ " "
    ++ digits 2 (sod / 3600) ++ ":" ++ digits 2 ((sod / 60) mod 60) ++ ":"
    ++ digits 2 (sod mod 60)
    ++ (if frac =? 0 then "" else "." ++ digits 6 frac).

(** ** [DataFrame.to_sql] *)

(** The value bound for a cell. In a [datetime64[ns]] column a time is
    written as its text; in another column a [pd.Timestamp] object has no
    adapter and is refused, as are lists and dicts. *)
Definition adapt (d : Dtype) (v : Cell) : Res SqlValue :=
  match v with
  | NA => Ok SqlNull
  | CStr s => Ok (SqlText s)
  | CInt z => Ok (SqlInteger z)
  | CTime t =>
      match d with
      | Ddatetime64ns => Ok (SqlText (isoformat t))
      | Dobject =>
          Raise (InterfaceError "Error binding parameter: type 'Timestamp' is not supported")
      end
  | CObj JNull => Ok SqlNull
  | CObj (JBool b) => Ok (SqlInteger (if b then 1 else 0))
  | CObj (JInt z) => Ok (SqlInteger z)
  | CObj (JFloat lit) => Ok (SqlReal lit)
  | CObj (JStr s) => Ok (SqlText s)
  | CObj (JArr _) =>
      Raise (InterfaceError "Error binding parameter: type 'list' is not supported")
  | CObj (JObj _) =>
      Raise (InterfaceError "Error binding parameter: type 'dict' is not supported")
  end.

Fixpoint adapt_row (ds : list Dtype) (vs : list Cell) : Res (list SqlValue) :=
  match ds, vs with
  | d :: ds', v :: vs' =>
      rbind (adapt d v) (fun x => rbind (adapt_row ds' vs') (fun xs => Ok (x :: xs)))
  | _, _ => Ok []
  end.

Definition lower (c : ascii) : ascii :=
  let n := nat_of_ascii c in
  if (65 <=? n)%nat && (n <=? 90)%nat then ascii_of_nat (n + 32) else c.

Definition lowercase (s : string) : string :=
  string_of_list_ascii (map lower (list_ascii_of_string s)).

(** Table names are matched without regard to ASCII case by the engine. *)
Fixpoint find_table (name : string) (d : Database) : option SqlTable :=
  match d with
  | [] => None
  | (n, t) :: d' =>
      if String.eqb (lowercase name) (lowercase n) then Some t
      else find_table name d'
  end.

(** The bridge looks for the table by its exact name. *)
Definition has_table (name : string) (d : Database) : bool :=
  existsb (fun e => String.eqb name (fst e)) d.

Definition drop_table (name : string) (d : Database) : Database :=
  filter (fun e => negb (String.eqb name (fst e))) d.

Fixpoint replace_table (name : string) (t : SqlTable) (d : Database) : Database :=
  match d with
  | [] => []
  | (n, t') :: d' =>
      if String.eqb name n then (n, t) :: d' else (n, t') :: replace_table name t d'
  end.

(** One inserted row, laid out on the columns of the table: a column
    that the frame does not have is left null. *)
Definition align (tcols fcols : list string) (vals : list SqlValue)
  : list SqlValue :=
  map (fun c => match position c fcols with
                | Some n => nth n vals SqlNull
                | None => SqlNull
                end) tcols.

Definition valid_if_exists (s : string) : bool :=
  String.eqb s "fail" || String.eqb s "replace" || String.eqb s "append".

Definition starts_with (p s : string) : bool := String.prefix p s.

(** [df.to_sql(name, conn, if_exists=if_exists, index=index)]. The
    statements of one call are one step of the model: a call that raises
    leaves the database as it was. *)
Definition to_sql (df : DataFrame) (name : string) (conn : Connection)
  (if_exists : string) (index : bool) : M Sqlite unit :=
  (log (EvToSql (fst conn) name if_exists index) ;;;
   if negb (valid_if_exists if_exists) then
     raise (ValueError ("'" ++ if_exists ++ "' is not valid for if_exists"))
   else
     frame <- lift (if index then reset_index df else Ok df) ;;
     w <- get ;;
     let d := database_at w (snd conn) in
     let fcols := column_names frame in
     let insert :=
       traverse (fun r => adapt_row (map snd (columns frame)) (snd r)) (rows frame) in
     if has_table name d then
       if String.eqb if_exists "fail" then
         raise (ValueError ("Table '" ++ name ++ "' already exists."))
       else if String.eqb if_exists "replace" then
         recs <- lift insert ;;
         write_database (snd conn)
           (drop_table name d ++ [(name, {| tcolumns := fcols; trows := recs |})])%list
       else
         match assoc name d with
         | None => ret tt
         | Some t =>
             if forallb (fun c => match position c (tcolumns t) with
                                  | Some _ => true | None => false end) fcols
             then
               recs <- lift insert ;;
               write_database (snd conn)
                 (replace_table name
                    {| tcolumns := tcolumns t;
                       trows := (trows t ++ map (align (tcolumns t) fcols) recs)%list |}
                    d)
             else raise (OperationalError ("table " ++ name ++ " has no column"))
         end
     else
       match find_table name d with
       | Some _ =>
           raise (OperationalError ("table " ++ name ++ " already exists"))
       | None =>
           if starts_with "sqlite_" (lowercase name) then
             raise (OperationalError "object name reserved for internal use")
           else
             recs <- lift insert ;;
             write_database (snd conn)
               (d ++ [(name, {| tcolumns := fcols; trows := recs |})])%list
       end)%py.

(** ** [pandas.read_sql] *)

Definition is_alpha (c : ascii) : bool :=
  let n := nat_of_ascii c in
  ((65 <=? n)%nat && (n <=? 90)%nat) || ((97 <=? n)%nat && (n <=? 122)%nat)
  || (n =? 95)%nat.

Definition sql_keywords : list string :=
  ["abort"; "action"; "add"; "after"; "all"; "alter"; "always"; "analyze";
   "and"; "as"; "asc"; "attach"; "autoincrement"; "before"; "begin";
   "between"; "by"; "cascade"; "case"; "cast"; "check"; "collate"; "column";
   "commit"; "conflict"; "constraint"; "create"; "cross"; "current";
   "current_date"; "current_time"; "current_timestamp"; "database";
   "default"; "deferrable"; "deferred"; "delete"; "desc"; "detach";
   "distinct"; "do"; "drop"; "each"; "else"; "end"; "escape"; "except";
   "exclude"; "exclusive"; "exists"; "explain"; "fail"; "filter"; "first";
   "following"; "for"; "foreign"; "from"; "full"; "generated"; "glob";
   "group"; "groups"; "having"; "if"; "ignore"; "immediate"; "in"; "index";
   "indexed"; "initially"; "inner"; "insert"; "instead"; "intersect"; "into";
   "is"; "isnull"; "join"; "key"; "last"; "left"; "like"; "limit"; "match";
   "materialized"; "natural"; "no"; "not"; "nothing"; "notnull"; "null";
   "nulls"; "of"; "offset"; "on"; "or"; "order"; "others"; "outer"; "over";
   "partition"; "plan"; "pragma"; "preceding"; "primary"; "query"; "raise";
   "range"; "recursive"; "references"; "regexp"; "reindex"; "release";
   "rename"; "replace"; "restrict"; "returning"; "right"; "rollback"; "row";
   "rows"; "savepoint"; "select"; "set"; "table"; "temp"; "temporary";
   "then"; "ties"; "to"; "transaction"; "trigger"; "unbounded"; "union";
   "unique"; "update"; "using"; "vacuum"; "values"; "view"; "virtual";
   "when"; "where"; "window"; "with"; "within"; "without"].

(** Names the engine resolves without being asked for a table. *)
Definition builtin_relations : list string :=
  ["json_each"; "json_tree"; "generate_series"; "dbstat"; "main"].

(** A name that, written bare after [FROM], can only denote the table of
    that name: letters, digits and underscores, not starting with a
    digit, not a keyword, not one of the engine's own relations. *)
Definition plain_table_name (s : string) : bool :=
  match list_ascii_of_string s with
  | [] => false
  | c :: r =>
      is_alpha c && forallb (fun x => is_alpha x || is_digit x) r
      && negb (existsb (String.eqb (lowercase s)) sql_keywords)
      && negb (existsb (String.eqb (lowercase s)) builtin_relations)
      && negb (starts_with "sqlite_" (lowercase s))
      && negb (starts_with "pragma_" (lowercase s))
  end.

Definition strip_string_prefix (p s : string) : option string :=
  option_map string_of_list_ascii
    (strip_prefix (list_ascii_of_string p) (list_ascii_of_string s)).

(** The fragment of SQL that the model executes itself: the full scan of
    one plainly named table. *)
Definition full_scan_of (sql : string) : option string :=
  match strip_string_prefix "SELECT * FROM " sql with
  | Some name => if plain_table_name name then Some name else None
  | None => None
  end.

Definition cell_of_sql (v : SqlValue) : Cell :=
  match v with
  | SqlNull => NA
  | SqlInteger z => CInt z
  | SqlReal lit => CObj (JFloat lit)
  | SqlText s => CStr s
  end.

(** A result set as a frame: rows numbered from 0, no temporal column
    (nothing asks for dates to be parsed). *)
Definition frame_of_table (t : SqlTable) : DataFrame :=
  {| index_name := None;
     columns := map (fun c => (c, Dobject)) (tcolumns t);
     rows := combine (range_from 0 (List.length (trows t)))
                     (map (map cell_of_sql) (trows t)) |}.

(** The engine's answer to [sql] on the database file at [path], as
    pandas hands it on: a frame, or its [DatabaseError] around whatever the
    engine refused. *)
Definition query (w : Sqlite) (path sql : string) : Res DataFrame :=
  let d := database_at w path in
  let failed (why : string) :=
    DatabaseError ("Execution failed on sql '" ++ sql ++ "': " ++ why) in
  match full_scan_of sql with
  | Some name =>
      match find_table name d with
      | Some t => Ok (frame_of_table t)
      | None => Raise (failed ("no such table: " ++ name))
      end
  | None =>
      match other_sql w d sql with
      | inr t => Ok (frame_of_table t)
      | inl why => Raise (failed why)
      end
  end.

(** [pd.read_sql(sql, conn)]: the text is handed to the engine as it is. *)
Definition read_sql (sql : string) (conn : Connection) : M Sqlite DataFrame :=
  (log (EvReadSql (fst conn) sql) ;;;
   w <- get ;;
   lift (query w (snd conn) sql))%py.

(** [cursor.execute(sql)] followed by [cursor.fetchall()] for the one
    statement that the program runs this way, the list of the catalogue. *)
Definition catalogue_sql : string :=
  "SELECT name FROM sqlite_master WHERE type='table';".

Definition execute_catalogue (conn : Connection) : M Sqlite (list (list SqlValue)) :=
  (log (EvExecute (fst conn) catalogue_sql) ;;;
   w <- get ;;
   ret (map (fun e => [SqlText (fst e)]) (database_at w (snd conn))))%py.

(* ===================================================================== *)
(** * [local/db_manager.py]                                               *)
(* ===================================================================== *)

Record DBManager : Type := mkDBManager {
  _db_path : string
}.

Definition default {A} (d : A) (o : option A) : A :=
  match o with Some a => a | None => d end.

(** [DBManager.save_dataframe(df, table_name, if_exists='replace',
    index=False)]; an argument left out is [None]. *)
Definition save_dataframe (self : DBManager) (df : DataFrame)
  (table_name : string) (if_exists : option string) (index : option bool)
  : M Sqlite unit :=
  let if_exists := default "replace" if_exists in
  let index := default false index in
  with_connection (_db_path self) (fun conn =>
    (to_sql df table_name conn if_exists index ;;;
     commit conn)%py).

(** [DBManager.load_dataframe(table_name, index_col='id')]. *)
Definition load_dataframe (self : DBManager) (table_name : string)
  (index_col : option string) : M Sqlite DataFrame :=
  let index_col := default "id" index_col in
  with_connection (_db_path self) (fun conn =>
    (df <- read_sql ("SELECT * FROM " ++ table_name) conn ;;
     lift (set_index df index_col))%py).

(** [DBManager.list_tables()]. *)
Definition list_tables (self : DBManager) : M Sqlite (list string) :=
  with_connection (_db_path self) (fun conn =>
    (fetched <- execute_catalogue conn ;;
     ret (map (fun row => match nth 0 row SqlNull with
                          | SqlText s => s
                          | _ => ""
                          end) fetched))%py).

(* ===================================================================== *)
(** * [local/llm_captures_evaluator.py]                                   *)
(* ===================================================================== *)

Definition newline : string := String "010"%char "".

(** The module constant [_prompt]: a triple-quoted literal, so it starts
    and ends with a line break and has one, after a space, between its
    two sentences. *)
Definition _prompt : string :=
  newline
  ++ "You are presented with the peak frame from a 3D character animation sequence. Based on facial cues visible in this single frame, identify the most likely emotions being expressed, using Ekman's seven universal emotions as reference (happiness, sadness, anger, fear, surprise, disgust, contempt). "
  ++ newline
  ++ "Describe the key visual cues that support your interpretation."
  ++ newline.

(** The module constant [_output_schema]. *)
Definition _output_schema : JSON :=
  JObj
    [("type", JStr "object");
     ("properties",
      JObj
        [("emotion",
          JObj [("type", JStr "string");
                ("description",
                 JStr "Identified emotions from the image, separated by commas if multiple.")]);
         ("key_visual_cues",
          JObj [("type", JStr "string");
                ("description",
                 JStr "Key visual cues supporting the emotion interpretation.")])]);
     ("required", JArr [JStr "emotion"; JStr "key_visual_cues"])].

(** ** The completion endpoint and the rest of the outside world *)

Inductive ContentPart : Type :=
| TextPart (text : string)          (* {"type": "text", "text": ...} *)
| ImageUrlPart (url : string).      (* {"type": "image_url", "image_url": {"url": ...}} *)

Record Message : Type := mkMessage {
  role : string;
  content : list ContentPart
}.

(** The keyword arguments of one [litellm.completion] call. *)
Record Request : Type := mkRequest {
  model : string;
  temperature : Z;
  messages : list Message;
  response_format : JSON
}.

Record Choice : Type := mkChoice {
  message_content : option string
}.

Record Completion : Type := mkCompletion {
  choices : list Choice;
  usage_total_tokens : Z
}.

(** What the driver sees of the world: the files it may open for reading
    (content or the [OSError] of [open]), the endpoint (its answer may
    depend on the requests made before), the requests made so far, and the
    clock, which answers its n-th reading with [clock n]. *)
Record World : Type := mkWorld {
  files : string -> Res string;
  endpoint : list Request -> Request -> Res Completion;
  requests : list Request;
  clock : nat -> Z;
  clock_reads : nat
}.

Record LLMCapturesEvaluator : Type := mkEvaluator {
  _model : string;
  _df_captures : DataFrame;
  _captures_path : string;
  df_evaluations : DataFrame
}.

(** The state an evaluation runs in: the driver object and the world. *)
Definition EvalState : Type := (LLMCapturesEvaluator * World)%type.

Definition result_columns : list string :=
  ["expected_emotion"; "identified_emotion"; "key_visual_cues"; "tokens_used";
   "evaluator"; "timestamp"].

(** [LLMCapturesEvaluator.__init__]. The root arrives as text or as a
    path and is kept as a path, here the text of its normal form (no
    trailing separator). *)
Definition init (model : string) (df_captures : DataFrame) (captures_path : string)
  : LLMCapturesEvaluator :=
  {| _model := model;
     _df_captures := df_captures;
     _captures_path := captures_path;
     df_evaluations :=
       {| index_name := Some "test_id";
          columns := columns (new_frame result_columns);
          rows := rows (new_frame result_columns) |} |}.

Definition set_evaluations (df : DataFrame) (self : LLMCapturesEvaluator)
  : LLMCapturesEvaluator :=
  {| _model := _model self; _df_captures := _df_captures self;
     _captures_path := _captures_path self; df_evaluations := df |}.

(** [self.df_evaluations.loc[idx, col] = v]. *)
Definition store (idx : Z) (col : string) (v : Cell) : M EvalState unit :=
  modify (fun s : EvalState =>
            (set_evaluations (loc_setitem (df_evaluations (fst s)) (CInt idx) col v)
                             (fst s),
             snd s)).

(** [root / rel] on paths: an absolute right operand stands alone; what
    is not text cannot be joined. *)
Definition path_div (root : string) (rel : Cell) : Res string :=
  match rel with
  | CStr p =>
      if starts_with "/" p then Ok p
      else if String.eqb root "." then Ok p
      else if String.eqb root "/" then Ok ("/" ++ p)
      else Ok (root ++ "/" ++ p)
  | _ => Raise (TypeError "unsupported operand type(s) for /")
  end.

(** [image_path.open('rb')] and [image_file.read()]. *)
Definition read_file (path : string) : M EvalState string :=
  fun s => (files (snd s) path, s).

(** [LLMCapturesEvaluator._encode_image]. *)
Definition _encode_image (image_path : string) : M EvalState string :=
  (data <- read_file image_path ;;
   ret (b64encode data))%py.

(** The world once one more request has reached the endpoint. *)
Definition with_request (w : World) (req : Request) : World :=
  {| files := files w; endpoint := endpoint w;
     requests := (requests w ++ [req])%list;
     clock := clock w; clock_reads := clock_reads w |}.

(** [litellm.completion] with the given arguments: the request reaches
    the endpoint, which answers or raises. *)
Definition completion (req : Request) : M EvalState Completion :=
  fun s =>
    let w := snd s in
    (endpoint w (requests w) req, (fst s, with_request w req)).

(** [pd.Timestamp.now()]. *)
Definition timestamp_now : M EvalState Z :=
  fun s =>
    let w := snd s in
    (Ok (clock w (clock_reads w)),
     (fst s,
      {| files := files w; endpoint := endpoint w; requests := requests w;
         clock := clock w; clock_reads := S (clock_reads w) |})).

(** The request that [_process_capture] builds for an encoded image. *)
Definition build_request (model_name base64_image : string) : Request :=
  {| model := model_name;
     temperature := 1;
     messages :=
       [ {| role := "user";
            content :=
              [ TextPart _prompt;
                ImageUrlPart ("data:image/jpeg;base64," ++ base64_image) ] |} ];
     response_format :=
       JObj [("type", JStr "json_schema");
             ("json_schema",
              JObj [("name", JStr "emotion_response");
                    ("schema", _output_schema)])] |}.

(** The dict returned by [_process_capture]. *)
Record Processed : Type := mkProcessed {
  response : option string;
  tokens_used : Z
}.

(** [LLMCapturesEvaluator._process_capture]. *)
Definition _process_capture (capture_path : string) : M EvalState Processed :=
  (base64_image <- _encode_image capture_path ;;
   s <- get ;;
   c <- completion (build_request (_model (fst s)) base64_image) ;;
   match choices c with
   | [] => raise (IndexError "list index out of range")
   | first :: _ =>
       ret {| response := message_content first;
              tokens_used := usage_total_tokens c |}
   end)%py.

(** [json.loads] of what the completion carried: only text can be
    decoded. *)
Definition loads (doc : option string) : Res JSON :=
  match doc with
  | Some s => json_loads s
  | None => Raise (TypeError "the JSON object must be str, bytes or bytearray, not NoneType")
  end.

(** The cell that holds a decoded value once it is assigned through
    [.loc]. A list is an iterable to be spread over the target, which is
    one cell. *)
Definition cell_of_json (j : JSON) : Res Cell :=
  match j with
  | JNull => Ok NA
  | JStr s => Ok (CStr s)
  | JInt z => Ok (CInt z)
  | JArr [x] =>
      match x with
      | JNull => Ok NA
      | JStr s => Ok (CStr s)
      | JInt z => Ok (CInt z)
      | _ => Ok (CObj x)
      end
  | JArr _ =>
      Raise (ValueError "Must have equal len keys and value when setting with an iterable")
  | _ => Ok (CObj j)
  end.

(** [LLMCapturesEvaluator.evaluate_capture(idx)], statement by statement.
    The right-hand side of an assignment is evaluated before the cell is
    written. *)
Definition evaluate_capture (idx : Z) : M EvalState Series :=
  (s <- get ;;
   rec <- lift (loc (_df_captures (fst s)) (CInt idx)) ;;
   rel <- lift (series_getitem rec "path") ;;
   capture_path <- lift (path_div (_captures_path (fst s)) rel) ;;
   result <- _process_capture capture_path ;;
   response <- lift (loads (response result)) ;;
   expected <- lift (series_getitem rec "emotion") ;;
   store idx "expected_emotion" expected ;;;
   emotion <- lift (rbind (json_getitem response "emotion") cell_of_json) ;;
   store idx "identified_emotion" emotion ;;;
   cues <- lift (rbind (json_getitem response "key_visual_cues") cell_of_json) ;;
   store idx "key_visual_cues" cues ;;;
   store idx "tokens_used" (CInt (tokens_used result)) ;;;
   store idx "evaluator" (CStr (_model (fst s))) ;;;
   now <- timestamp_now ;;
   store idx "timestamp" (CTime now) ;;;
   s' <- get ;;
   lift (loc (df_evaluations (fst s')) (CInt idx)))%py.

(** The statements of [evaluate_capture] that follow the decoding of the
    response: the six assignments and the return. *)
Definition record_result (idx : Z) (model_name : string) (rec : Series)
  (result : Processed) (response : JSON) : M EvalState Series :=
  (expected <- lift (series_getitem rec "emotion") ;;
   store idx "expected_emotion" expected ;;;
   emotion <- lift (rbind (json_getitem response "emotion") cell_of_json) ;;
   store idx "identified_emotion" emotion ;;;
   cues <- lift (rbind (json_getitem response "key_visual_cues") cell_of_json) ;;
   store idx "key_visual_cues" cues ;;;
   store idx "tokens_used" (CInt (tokens_used result)) ;;;
   store idx "evaluator" (CStr model_name) ;;;
   now <- timestamp_now ;;
   store idx "timestamp" (CTime now) ;;;
   s' <- get ;;
   lift (loc (df_evaluations (fst s')) (CInt idx)))%py.

(** The state a save runs in: the driver object and the storage. *)
Definition SaveState : Type := (LLMCapturesEvaluator * Sqlite)%type.

(** An operation on the storage, run beside the driver object. *)
Definition on_storage {A} (m : M Sqlite A) : M SaveState A :=
  fun s => let '(r, w) := m (snd s) in (r, (fst s, w)).

(** [LLMCapturesEvaluator.save_to_db(db, table_name='evaluations',
    override_rule='append')]. *)
Definition save_to_db (db : DBManager) (table_name override_rule : option string)
  : M SaveState unit :=
  let table_name := default "evaluations" table_name in
  let override_rule := default "append" override_rule in
  (s <- get ;;
   ts <- lift (getitem (df_evaluations (fst s)) "timestamp") ;;
   ts' <- lift (astype_datetime64 ts) ;;
   modify (fun s : SaveState =>
             (set_evaluations (setitem (df_evaluations (fst s)) "timestamp" ts')
                              (fst s),
              snd s)) ;;;
   s1 <- get ;;
   df_data <- lift (reset_index (df_evaluations (fst s1))) ;;
   on_storage (save_dataframe db df_data table_name (Some override_rule) None))%py.

(* ===================================================================== *)
(** * Sequences of operations                                             *)
(* ===================================================================== *)

(** A driver together with everything it acts on. *)
Record System : Type := mkSystem {
  driver : LLMCapturesEvaluator;
  world : World;
  storage : Sqlite
}.

(** The calls a client can make on the two classes. *)
Inductive Op : Type :=
| OpEvaluate (idx : Z)
| OpSaveToDb (db : DBManager) (table_name override_rule : option string)
| OpSave (db : DBManager) (df : DataFrame) (table_name : string)
         (if_exists : option string) (index : option bool)
| OpLoad (db : DBManager) (table_name : string) (index_col : option string)
| OpListTables (db : DBManager).

(** One call. A client that goes on after an exception finds the objects
    as the failed call left them. *)
Definition step (op : Op) (s : System) : System :=
  match op with
  | OpEvaluate idx =>
      let '(_, (d, w)) := evaluate_capture idx (driver s, world s) in
      {| driver := d; world := w; storage := storage s |}
  | OpSaveToDb db t r =>
      let '(_, (d, q)) := save_to_db db t r (driver s, storage s) in
      {| driver := d; world := world s; storage := q |}
  | OpSave db df t p i =>
      {| driver := driver s; world := world s;
         storage := snd (save_dataframe db df t p i (storage s)) |}
  | OpLoad db t c =>
      {| driver := driver s; world := world s;
         storage := snd (load_dataframe db t c (storage s)) |}
  | OpListTables db =>
      {| driver := driver s; world := world s;
         storage := snd (list_tables db (storage s)) |}
  end.

Fixpoint run (ops : list Op) (s : System) : System :=
  match ops with
  | [] => s
  | op :: ops' => run ops' (step op s)
  end.

Definition is_evaluate (op : Op) : bool :=
  match op with OpEvaluate _ => true | _ => false end.

Definition is_save_to_db (op : Op) : bool :=
  match op with OpSaveToDb _ _ _ => true | _ => false end.

(** The indices that a sequence of calls evaluates. *)
Fixpoint evaluated (ops : list Op) : list Z :=
  match ops with
  | [] => []
  | OpEvaluate idx :: ops' => idx :: evaluated ops'
  | _ :: ops' => evaluated ops'
  end.

(** A system whose driver has just been constructed. *)
Definition fresh (model_name : string) (captures : DataFrame) (root : string)
  (w : World) (q : Sqlite) : System :=
  {| driver := init model_name captures root; world := w; storage := q |}.

(** ** Observations on requests *)

Definition text_parts (r : Request) : list string :=
  flat_map (fun m => flat_map (fun p => match p with
                                        | TextPart t => [t]
                                        | ImageUrlPart _ => []
                                        end) (content m)) (messages r).

Definition image_urls (r : Request) : list string :=
  flat_map (fun m => flat_map (fun p => match p with
                                        | TextPart _ => []
                                        | ImageUrlPart u => [u]
                                        end) (content m)) (messages r).

(** The requests that one [evaluate_capture] adds to those made before. *)
Definition sent (idx : Z) (s : EvalState) : list Request :=
  skipn (List.length (requests (snd s)))
        (requests (snd (snd (evaluate_capture idx s)))).

(** The bytes of the image of capture [idx], or the exception met on the
    way to them: the row, its [path], the joined path, the file. *)
Definition capture_image (idx : Z) (s : EvalState) : Res string :=
  rbind (loc (_df_captures (fst s)) (CInt idx)) (fun rec =>
  rbind (series_getitem rec "path") (fun rel =>
  rbind (path_div (_captures_path (fst s)) rel) (fun p =>
  files (snd s) p))).

(** The decoded response for capture [idx], or the exception met on the
    way to it: the image, the completion, its first choice, the decoding. *)
Definition decoded_response (idx : Z) (s : EvalState) : Res JSON :=
  rbind (capture_image idx s) (fun data =>
  rbind (endpoint (snd s) (requests (snd s))
           (build_request (_model (fst s)) (b64encode data))) (fun c =>
  match choices c with
  | [] => Raise (IndexError "list index out of range")
  | first :: _ => loads (message_content first)
  end)).

(** The number of rows of the results table. *)
Definition row_count (self : LLMCapturesEvaluator) : nat :=
  List.length (rows (df_evaluations self)).

(** ** The prompt as the specification quotes it *)

(** The text between the quotation marks of the specification, one line. *)
Definition spec_prompt : string :=
  "You are presented with the peak frame from a 3D character animation sequence. Based on facial cues visible in this single frame, identify the most likely emotions being expressed, using Ekman's seven universal emotions as reference (happiness, sadness, anger, fear, surprise, disgust, contempt). Describe the key visual cues that support your interpretation.".

Definition is_space (c : ascii) : bool :=
  let n := nat_of_ascii c in (n =? 32)%nat || ((9 <=? n)%nat && (n <=? 13)%nat).

(** [s.split()]: the maximal runs of characters that are not white
    space. *)
Fixpoint split_ws (cs cur : list ascii) : list (list ascii) :=
  match cs with
  | [] => match cur with [] => [] | _ => [rev cur] end
  | c :: r =>
      if is_space c then
        match cur with
        | [] => split_ws r []
        | _ => rev cur :: split_ws r []
        end
      else split_ws r (c :: cur)
  end.

Fixpoint join_space (ws : list (list ascii)) : list ascii :=
  match ws with
  | [] => []
  | [w] => w
  | w :: ws' => (w ++ " "%char :: join_space ws')%list
  end.

(** [' '.join(s.split())]. *)
Definition normalize_space (s : string) : string :=
  string_of_list_ascii (join_space (split_ws (list_ascii_of_string s) [])).

(** The first [n] characters, a line break, the rest. *)
Definition break_after (n : nat) (s : string) : string :=
  substring 0 n s ++ newline ++ substring n (String.length s - n) s.

(** ** The stored form of a cell *)



(** The rows stored under [name] in the database file of [db]. *)
Definition stored_rows (q : Sqlite) (db : DBManager) (name : string)
  : list (list SqlValue) :=
  match find_table name (database_at q (_db_path db)) with
  | Some t => trows t
  | None => []
  end.

(** The connections open after a call that connects to [path] in [w] and
    closes nothing. *)
Definition conns_after_connect (w : Sqlite) (path : string) : list (nat * string) :=
  if unopenable w path then open_conns w
  else (open_conns w ++ [(next_handle w, path)])%list.

(** Names of the catalogue are distinct, also when case is ignored. *)
Fixpoint catalogue_ok (d : Database) : bool :=
  match d with
  | [] => true
  | (n, _) :: d' =>
      match find_table n d' with
      | Some _ => false
      | None => catalogue_ok d'
      end
  end.

(** A results table as the driver keeps it: the index is [test_id], the
    columns are the six of the constructor, every row has six cells. *)
Definition results_shaped (df : DataFrame) : Prop :=
  index_name df = Some "test_id"
  /\ column_names df = result_columns
  /\ Forall (fun r => List.length (snd r) = 6%nat) (rows df).

(** A results table all of whose rows are accounted for by the indices
    [E]: it has the shape of a results table, no two rows share a label,
    every label is an index of [E], and the [timestamp] column holds
    times or nothing. *)
Definition tracked (E : list Z) (df : DataFrame) : Prop :=
  results_shaped df
  /\ NoDup (labels df)
  /\ Forall (fun l => exists idx, l = CInt idx /\ In idx E) (labels df)
  /\ Forall (fun r => is_temporal (nth 5 (snd r) NA) = true) (rows df).

(** The frame with its [timestamp] column declared [datetime64[ns]]. *)
Definition retyped (df : DataFrame) : DataFrame :=
  {| index_name := index_name df;
     columns := map (fun c => if String.eqb "timestamp" (fst c)
                              then (fst c, Ddatetime64ns) else c) (columns df);
     rows := rows df |}.

(* ===================================================================== *)
(** * Further observations                                                *)
(* ===================================================================== *)


(** The rows that are not labelled [l], in order. *)
Definition other_rows (l : Cell) (df : DataFrame) : list (Cell * list Cell) :=
  filter (fun r => negb (label_eqb l (fst r))) (rows df).


(** What the constructor was given. *)
Definition configuration (self : LLMCapturesEvaluator)
  : string * DataFrame * string :=
  (_model self, _df_captures self, _captures_path self).


(** The frame that [save_to_db] hands to the adapter for the results
    table [df]: [test_id] first, rows numbered from 0. *)
Definition outgoing_frame (df : DataFrame) : DataFrame :=
  {| index_name := None;
     columns := ("test_id", Dobject) :: columns df;
     rows := combine (range_from 0 (List.length (rows df)))
                     (map (fun r => fst r :: snd r) (rows df)) |}.

(** The table stored under [name] in the database file of [db]. *)
Definition stored_table (q : Sqlite) (db : DBManager) (name : string)
  : option SqlTable :=
  find_table name (database_at q (_db_path db)).

(** How often [name] occurs in a list of names. *)
Definition occurrences (name : string) (names : list string) : nat :=
  List.length (filter (String.eqb name) names).

(* ===================================================================== *)
(** * Predicates on computations                                          *)
(* ===================================================================== *)



(** [m] ends, normally or not, in a state with the same [f]. *)
Definition keeps {St X A} (f : St -> X) (m : M St A) : Prop :=
  forall s, f (snd (m s)) = f s.

(** [m] ends, normally or not, in a state where [P] still holds. *)
Definition preserves {St A} (P : St -> Prop) (m : M St A) : Prop :=
  forall s, P s -> P (snd (m s)).





Definition requests_of (s : EvalState) : list Request := requests (snd s).

Definition results_of (s : EvalState) : DataFrame := df_evaluations (fst s).

(* ===================================================================== *)
(** * A small world to run the code in                                    *)
(* ===================================================================== *)

Module Fixture.

(** Two captures; only the image of the first exists. *)
Definition captures : DataFrame :=
  {| index_name := None;
     columns := [("path", Dobject); ("emotion", Dobject)];
     rows := [(CInt 1, [CStr "smile.png"; CStr "happiness"]);
              (CInt 2, [CStr "missing.png"; CStr "anger"])] |}.

Definition disk (p : string) : Res string :=
  if String.eqb p "captures/smile.png" then Ok "Man"
  else Raise (FileNotFoundError p).

(** An endpoint that always answers with the same content. *)
Definition answers (doc : string) (_ : list Request) (_ : Request)
  : Res Completion :=
  Ok {| choices := [ {| message_content := Some doc |} ];
        usage_total_tokens := 42 |}.

Definition world_with (doc : string) : World :=
  {| files := disk; endpoint := answers doc; requests := [];
     clock := fun n => 1700000000123456789 + Z.of_nat n;
     clock_reads := 0 |}.

Definition evaluator : LLMCapturesEvaluator := init "gpt-4o" captures "captures".

Definition quoted (s : string) : string :=
  String dquote s ++ String dquote "".

(** [{"emotion": "happiness", "key_visual_cues": "raised cheeks, crow's feet"}] *)
Definition conforming : string :=
  "{" ++ quoted "emotion" ++ ": " ++ quoted "happiness" ++ ", "
  ++ quoted "key_visual_cues" ++ ": " ++ quoted "raised cheeks, crow's feet"
  ++ "}".

(** [{"key_visual_cues": "raised cheeks"}]: no [emotion]. *)
Definition without_emotion : string :=
  "{" ++ quoted "key_visual_cues" ++ ": " ++ quoted "raised cheeks" ++ "}".

(** An engine that refuses every statement outside the model's fragment. *)
Definition empty_storage : Sqlite :=
  {| unopenable := fun _ => false; db_files := [];
     other_sql := fun _ _ => inl "syntax error";
     open_conns := []; next_handle := 0; trace := [] |}.

Definition db : DBManager := {| _db_path := "evals.db" |}.

(** The driver after the first capture has been evaluated. *)
Definition evaluated_once : LLMCapturesEvaluator :=
  fst (snd (evaluate_capture 1 (evaluator, world_with conforming))).

(** The storage after that driver has saved once. *)
Definition saved_once : SaveState :=
  snd (save_to_db db None None (evaluated_once, empty_storage)).

(** The frame that the driver hands to the adapter: the results with
    the index as a column. *)
Definition results_frame : DataFrame :=
  match reset_index (df_evaluations (fst saved_once)) with
  | Ok df => df
  | Raise _ => new_frame []
  end.

End Fixture.

(** How far a results table [df] may be from [df0] while capture [idx]
    is being recorded. *)
Definition recording (idx : Z) (df0 df : DataFrame) : Prop :=
  column_names df = result_columns
  /\ index_name df = index_name df0
  /\ other_rows (CInt idx) df = other_rows (CInt idx) df0
  /\ (labels df = labels df0
      \/ (has_label (CInt idx) df0 = false
          /\ labels df = (labels df0 ++ [CInt idx])%list)).

(** ** A second world: three captures, all with an image *)

Module Scenario.

Definition captures : DataFrame :=
{| index_name := None;
   columns := [("path", Dobject); ("emotion", Dobject)];
   rows := [(CInt 1, [CStr "smile.png"; CStr "happiness"]);
            (CInt 2, [CStr "frown.png"; CStr "sadness"]);
            (CInt 3, [CStr "glare.png"; CStr "anger"])] |}.

Definition disk (p : string) : Res string :=
  if starts_with "captures/" p then Ok p else Raise (FileNotFoundError p).

(** An endpoint that refuses every request. *)
Definition refuses (_ : list Request) (_ : Request) : Res Completion :=
  Raise (ClientError "RateLimitError" "slow down").

Definition world_of (ep : list Request -> Request -> Res Completion) : World :=
  {| files := disk; endpoint := ep; requests := [];
     clock := fun n => 1700000000000000000 + 1000000000 * Z.of_nat n;
     clock_reads := 0 |}.

Definition evaluator : LLMCapturesEvaluator := init "gpt-4o" captures "captures".

(** The system after captures 1 and 2 have been evaluated. *)
Definition after_two : System :=
  run [OpEvaluate 1; OpEvaluate 2]
      (fresh "gpt-4o" captures "captures"
             (world_of (Fixture.answers Fixture.conforming)) Fixture.empty_storage).

(** The same system after its results have been saved, by default. *)
Definition after_save : System :=
  step (OpSaveToDb Fixture.db None None) after_two.

(** A storage none of whose files can be opened. *)
Definition locked : Sqlite :=
  {| unopenable := fun _ => true; db_files := [];
     other_sql := fun _ _ => inl "syntax error";
     open_conns := []; next_handle := 0; trace := [] |}.

(** The table that the first save of the fixture has stored. *)
Definition stored_once : SqlTable :=
  {| tcolumns := "test_id" :: result_columns;
     trows := [[SqlInteger 1; SqlText "happiness"; SqlText "happiness";
                SqlText "raised cheeks, crow's feet"; SqlInteger 42;
                SqlText "gpt-4o"; SqlText "2023-11-14 22:13:20.123456"]] |}.

(** A second adapter, on another file. *)
Definition other_db : DBManager := {| _db_path := "other.db" |}.

End Scenario.

(* ===================================================================== *)
(** * Properties                                                          *)
(* ===================================================================== *)

(** ** What a computation can raise *)

Section Raises.
Context {St : Type} (P : PyExc -> Prop).









End Raises.


(** ** What a computation leaves alone *)

Section Keeps.
Context {St X : Type} (f : St -> X).

Lemma keeps_ret {A} (a : A) : keeps f (ret a).
Proof. intro s. reflexivity. Qed.

Lemma keeps_raise {A} (e : PyExc) : keeps f (@raise St A e).
Proof. intro s. reflexivity. Qed.

Lemma keeps_lift {A} (r : Res A) : keeps f (lift r).
Proof. intro s. reflexivity. Qed.

Lemma keeps_get : keeps f get.
Proof. intro s. reflexivity. Qed.

Lemma keeps_bind {A B} (m : M St A) (k : A -> M St B) :
  keeps f m -> (forall a, keeps f (k a)) -> keeps f (bind m k).
Proof.
  intros Hm Hk s. unfold bind.
  specialize (Hm s). destruct (m s) as [[a|e] s']; simpl in *.
  - rewrite Hk. exact Hm.
  - exact Hm.
Qed.
End Keeps.

Create HintDb keeps.
#[local] Hint Resolve keeps_ret keeps_raise keeps_lift keeps_get : keeps.

Ltac keeps_steps :=
  repeat first
    [ solve [ auto with keeps ]
    | apply keeps_bind; [ | intro ] ].

(** Case analysis on the first [match] of the goal. *)
Ltac break_match :=
  match goal with
  | |- context [match ?x with _ => _ end] => destruct x eqn:?
  end.

(** ** The driver: requests *)

Lemma store_keeps_requests idx col v : keeps requests_of (store idx col v).
Proof. intros [d w]. reflexivity. Qed.

Lemma timestamp_now_keeps_requests : keeps requests_of timestamp_now.
Proof. intros [d w]. reflexivity. Qed.

Lemma read_file_keeps_requests p : keeps requests_of (read_file p).
Proof. intros [d w]. reflexivity. Qed.

#[local] Hint Resolve store_keeps_requests timestamp_now_keeps_requests
  read_file_keeps_requests : keeps.

Lemma record_result_keeps_requests idx m rec result response :
  keeps requests_of (record_result idx m rec result response).
Proof. unfold record_result. keeps_steps. Qed.

Lemma evaluate_capture_eq idx :
  evaluate_capture idx
  = (s <- get ;;
     rec <- lift (loc (_df_captures (fst s)) (CInt idx)) ;;
     rel <- lift (series_getitem rec "path") ;;
     capture_path <- lift (path_div (_captures_path (fst s)) rel) ;;
     result <- _process_capture capture_path ;;
     response <- lift (loads (response result)) ;;
     record_result idx (_model (fst s)) rec result response)%py.
Proof. reflexivity. Qed.

(** The requests after [_process_capture]: one more when the file could
    be read, none otherwise. *)
Lemma process_capture_run p d w :
  _process_capture p (d, w)
  = match files w p with
    | Raise e => (Raise e, (d, w))
    | Ok data =>
        let req := build_request (_model d) (b64encode data) in
        let s' := (d, with_request w req) in
        match endpoint w (requests w) req with
        | Raise e => (Raise e, s')
        | Ok c =>
            match choices c with
            | [] => (Raise (IndexError "list index out of range"), s')
            | first :: _ =>
                (Ok {| response := message_content first;
                       tokens_used := usage_total_tokens c |}, s')
            end
        end
    end.
Proof.
  unfold _process_capture, _encode_image, read_file, bind, get, completion,
    ret, raise; simpl.
  destruct (files w p) as [data|e]; simpl; [|reflexivity].
  destruct (endpoint w (requests w) _) as [c|e]; simpl; [|reflexivity].
  destruct (choices c); reflexivity.
Qed.

Lemma process_capture_requests p s :
  requests_of (snd (_process_capture p s))
  = (requests_of s
     ++ match files (snd s) p with
        | Ok data => [build_request (_model (fst s)) (b64encode data)]
        | Raise _ => []
        end)%list.
Proof.
  destruct s as [d w]. rewrite process_capture_run. unfold requests_of. simpl.
  destruct (files w p) as [data|e]; simpl.
  - destruct (endpoint w (requests w) _) as [c|e]; simpl; [|reflexivity].
    destruct (choices c); reflexivity.
  - now rewrite app_nil_r.
Qed.

Lemma process_capture_keeps_driver p s : fst (snd (_process_capture p s)) = fst s.
Proof.
  destruct s as [d w]. rewrite process_capture_run.
  destruct (files w p) as [data|e]; simpl; [|reflexivity].
  destruct (endpoint w (requests w) _) as [c|e]; simpl; [|reflexivity].
  destruct (choices c); reflexivity.
Qed.

(** [evaluate_capture] up to the decoding of the response. *)
Lemma evaluate_capture_run idx s :
  evaluate_capture idx s
  = match loc (_df_captures (fst s)) (CInt idx) with
    | Raise e => (Raise e, s)
    | Ok rec =>
        match rbind (series_getitem rec "path") (path_div (_captures_path (fst s))) with
        | Raise e => (Raise e, s)
        | Ok p =>
            match _process_capture p s with
            | (Raise e, s') => (Raise e, s')
            | (Ok result, s') =>
                match loads (response result) with
                | Raise e => (Raise e, s')
                | Ok j => record_result idx (_model (fst s)) rec result j s'
                end
            end
        end
    end.
Proof.
  rewrite evaluate_capture_eq. unfold bind, get, lift. simpl.
  destruct (loc (_df_captures (fst s)) (CInt idx)) as [rec|e]; simpl;
    [|reflexivity].
  destruct (series_getitem rec "path") as [rel|e]; simpl; [|reflexivity].
  destruct (path_div (_captures_path (fst s)) rel) as [p|e]; simpl;
    [|reflexivity].
  destruct (_process_capture p s) as [[result|e] s']; [|reflexivity].
  destruct (loads (response result)); reflexivity.
Qed.

Lemma capture_image_eq idx s :
  capture_image idx s
  = match loc (_df_captures (fst s)) (CInt idx) with
    | Raise e => Raise e
    | Ok rec =>
        match rbind (series_getitem rec "path") (path_div (_captures_path (fst s))) with
        | Raise e => Raise e
        | Ok p => files (snd s) p
        end
    end.
Proof.
  unfold capture_image.
  destruct (loc (_df_captures (fst s)) (CInt idx)) as [rec|e]; simpl;
    [|reflexivity].
  destruct (series_getitem rec "path") as [rel|e]; simpl; [|reflexivity].
  destruct (path_div (_captures_path (fst s)) rel); reflexivity.
Qed.

(** The requests after [evaluate_capture]: one more, built from the
    image, when the image could be read, none otherwise. *)
Lemma evaluate_capture_requests idx s :
  requests_of (snd (evaluate_capture idx s))
  = (requests_of s
     ++ match capture_image idx s with
        | Ok data => [build_request (_model (fst s)) (b64encode data)]
        | Raise _ => []
        end)%list.
Proof.
  rewrite evaluate_capture_run, capture_image_eq.
  destruct (loc (_df_captures (fst s)) (CInt idx)) as [rec|e]; simpl;
    [|now rewrite app_nil_r].
  destruct (rbind _ _) as [p|e]; simpl; [|now rewrite app_nil_r].
  pose proof (process_capture_requests p s) as Hr.
  destruct (_process_capture p s) as [[result|e] s1]; simpl in *; [|exact Hr].
  rewrite <- Hr.
  destruct (loads (response result)) as [j|e]; [|reflexivity].
  apply record_result_keeps_requests.
Qed.

Lemma skipn_length_app {A} (l l' : list A) : skipn (List.length l) (l ++ l') = l'.
Proof. induction l; simpl; auto. Qed.

Lemma sent_eq idx s :
  sent idx s
  = match capture_image idx s with
    | Ok data => [build_request (_model (fst s)) (b64encode data)]
    | Raise _ => []
    end.
Proof.
  unfold sent. pose proof (evaluate_capture_requests idx s) as H.
  unfold requests_of in H. rewrite H. apply skipn_length_app.
Qed.

(** An evaluation that does not get at its image stops there, and leaves
    the driver and the world as they were. *)
Lemma evaluate_capture_no_image idx s e :
  capture_image idx s = Raise e -> evaluate_capture idx s = (Raise e, s).
Proof.
  rewrite evaluate_capture_run, capture_image_eq.
  destruct (loc (_df_captures (fst s)) (CInt idx)) as [rec|e0]; [|congruence].
  destruct (rbind _ _) as [p|e0]; [|congruence].
  destruct s as [d w]. simpl. intro Hf.
  rewrite process_capture_run, Hf. reflexivity.
Qed.

(** An evaluation that fails before it has a decoded response fails with
    the exception it met and leaves the results table as it was. *)
Lemma evaluate_capture_undecoded idx s e :
  decoded_response idx s = Raise e ->
  fst (evaluate_capture idx s) = Raise e
  /\ results_of (snd (evaluate_capture idx s)) = results_of s.
Proof.
  unfold decoded_response.
  rewrite evaluate_capture_run, capture_image_eq.
  destruct (loc (_df_captures (fst s)) (CInt idx)) as [rec|e0]; simpl.
  2:{ intro H; inversion H; subst. split; reflexivity. }
  destruct (rbind (series_getitem rec "path") _) as [p|e0]; simpl.
  2:{ intro H; inversion H; subst. split; reflexivity. }
  destruct s as [d w]. simpl. rewrite process_capture_run.
  destruct (files w p) as [data|e0]; simpl.
  2:{ intro H; inversion H; subst. split; reflexivity. }
  destruct (endpoint w (requests w) _) as [c|e0]; simpl.
  2:{ intro H; inversion H; subst. split; reflexivity. }
  destruct (choices c) as [|first rest]; simpl.
  { intro H; inversion H; subst. split; reflexivity. }
  intro Hl. rewrite Hl. split; reflexivity.
Qed.

(** ** C7 *)

(** C7. When the image file of a capture cannot be opened under the
    captures root, [evaluate_capture] fails with the exception of [open]
    and the list of requests made to the completion endpoint is what it
    was before the call (no request is issued); and whatever the index,
    one call adds at most one request. *)
Theorem evaluate_capture_request_count (idx : Z) (s : EvalState) :
  (forall rec rel p e,
      loc (_df_captures (fst s)) (CInt idx) = Ok rec ->
      series_getitem rec "path" = Ok rel ->
      path_div (_captures_path (fst s)) rel = Ok p ->
      files (snd s) p = Raise e ->
      fst (evaluate_capture idx s) = Raise e
      /\ requests (snd (snd (evaluate_capture idx s))) = requests (snd s))
  /\ (List.length (requests (snd (snd (evaluate_capture idx s))))
      <= List.length (requests (snd s)) + 1)%nat.
Proof.
  split.
  - intros rec rel p e Hrec Hrel Hp Hf.
    assert (Hi : capture_image idx s = Raise e).
    { unfold capture_image. rewrite Hrec; simpl. rewrite Hrel; simpl.
      rewrite Hp; simpl. exact Hf. }
    rewrite (evaluate_capture_no_image _ _ _ Hi). auto.
  - pose proof (evaluate_capture_requests idx s) as H.
    unfold requests_of in H. rewrite H, length_app.
    destruct (capture_image idx s); simpl; lia.
Qed.

Lemma evaluate_capture_request_count_witness :
  fst (evaluate_capture 2 (Fixture.evaluator, Fixture.world_with Fixture.conforming))
  = Raise (FileNotFoundError "captures/missing.png")
  /\ requests (snd (snd (evaluate_capture 2
        (Fixture.evaluator, Fixture.world_with Fixture.conforming)))) = [].
Proof.
  destruct (evaluate_capture_request_count 2
              (Fixture.evaluator, Fixture.world_with Fixture.conforming))
    as [H _].
  apply (H [("path", CStr "missing.png"); ("emotion", CStr "anger")]
           (CStr "missing.png") "captures/missing.png"); reflexivity.
Defined.

(** ** C9 *)

(** C9. Whatever the name and the bytes of the image file, an evaluation
    that reads it sends one request, and the image of that request is the
    data URI made of the fixed prefix [data:image/jpeg;base64,] and the
    base64 text of the bytes; an evaluation that cannot read it sends
    nothing. *)
Theorem image_sent_as_jpeg_data_uri (idx : Z) (s : EvalState) :
  map image_urls (sent idx s)
  = match capture_image idx s with
    | Ok data => [["data:image/jpeg;base64," ++ b64encode data]]
    | Raise _ => []
    end.
Proof.
  rewrite sent_eq. destruct (capture_image idx s); reflexivity.
Qed.

(** The file of the fixture is named as a PNG; it goes out as a JPEG. *)
Example png_sent_as_jpeg :
  map image_urls (sent 1 (Fixture.evaluator, Fixture.world_with Fixture.conforming))
  = [["data:image/jpeg;base64,TWFu"]].
Proof. reflexivity. Qed.

(** ** C3 *)

(** C3, as stated: the text sent is the one-line text of the
    specification. It is not: the text sent starts with a line break. *)
Lemma prompt_sent_differs_from_spec :
  map text_parts (sent 1 (Fixture.evaluator, Fixture.world_with Fixture.conforming))
  <> [[spec_prompt]].
Proof. vm_compute. discriminate. Qed.

(** C3, amended. The text sent with every completion request is the
    module constant [_prompt]; this constant is the text quoted by the
    specification with a line break before it, a line break after the
    space that ends its first sentence group (296 characters in), and a
    line break after it; so the two agree once runs of white space are
    collapsed. *)
Theorem prompt_sent_is_module_constant (idx : Z) (s : EvalState) :
  map text_parts (sent idx s)
  = match capture_image idx s with
    | Ok _ => [[_prompt]]
    | Raise _ => []
    end
  /\ _prompt = newline ++ break_after 296 spec_prompt ++ newline
  /\ normalize_space _prompt = spec_prompt.
Proof.
  split; [|split].
  - rewrite sent_eq. destruct (capture_image idx s); reflexivity.
  - vm_compute. reflexivity.
  - vm_compute. reflexivity.
Qed.

(** ** C1 *)

(** C1. The claim fails on the code when the decoded response has no
    [emotion]: the endpoint of the fixture answers
    [{"key_visual_cues": "raised cheeks"}], the evaluation of capture 1
    raises [KeyError], and the results table, empty before the call, has
    one row after it, holding the expected emotion and nothing else. *)
Theorem evaluate_capture_partial_row :
  let s := (Fixture.evaluator, Fixture.world_with Fixture.without_emotion) in
  fst (evaluate_capture 1 s) = Raise (KeyError "emotion")
  /\ row_count (fst s) = 0%nat
  /\ row_count (fst (snd (evaluate_capture 1 s))) = 1%nat
  /\ rows (df_evaluations (fst (snd (evaluate_capture 1 s))))
     = [(CInt 1, [CStr "happiness"; NA; NA; NA; NA; NA])].
Proof. vm_compute. repeat split. Qed.

(** ** The adapter: connections *)

Lemma log_keeps_conns e : keeps open_conns (log e).
Proof. intro w. reflexivity. Qed.

Lemma write_database_keeps_conns p d : keeps open_conns (write_database p d).
Proof. intro w. reflexivity. Qed.

#[local] Hint Resolve log_keeps_conns write_database_keeps_conns : keeps.

Lemma commit_keeps_conns c : keeps open_conns (commit c).
Proof. unfold commit. auto with keeps. Qed.

Lemma to_sql_keeps_conns df name c pol idx :
  keeps open_conns (to_sql df name c pol idx).
Proof.
  unfold to_sql.
  apply keeps_bind; [auto with keeps|intros _].
  destruct (negb (valid_if_exists pol)); [apply keeps_raise|].
  apply keeps_bind; [apply keeps_lift|intro frame].
  apply keeps_bind; [apply keeps_get|intro w].
  destruct (has_table name _).
  - destruct (String.eqb pol "fail"); [apply keeps_raise|].
    destruct (String.eqb pol "replace"); [keeps_steps|].
    destruct (assoc name _); [|apply keeps_ret].
    destruct (forallb _ _); keeps_steps.
  - destruct (find_table name _); [apply keeps_raise|].
    destruct (starts_with _ _); keeps_steps.
Qed.

Lemma read_sql_keeps_conns sql c : keeps open_conns (read_sql sql c).
Proof. unfold read_sql. keeps_steps. Qed.

Lemma execute_catalogue_keeps_conns c : keeps open_conns (execute_catalogue c).
Proof. unfold execute_catalogue. keeps_steps. Qed.

#[local] Hint Resolve commit_keeps_conns to_sql_keeps_conns read_sql_keeps_conns
  execute_catalogue_keeps_conns : keeps.

Lemma connection_exit_keeps_conns {A} c (body : M Sqlite A) :
  keeps open_conns body -> keeps open_conns (connection_exit c body).
Proof.
  intros H w. unfold connection_exit. specialize (H w).
  destruct (body w) as [[a|e] w']; exact H.
Qed.

(** A block under [with sqlite3.connect(path)] whose statements close
    nothing ends with the connection it opened still open. *)
Lemma with_connection_conns {A} path (body : Connection -> M Sqlite A) w :
  (forall c, keeps open_conns (body c)) ->
  open_conns (snd (with_connection path body w)) = conns_after_connect w path.
Proof.
  intro H. unfold with_connection, bind, connect, conns_after_connect.
  destruct (unopenable w path); [reflexivity|].
  rewrite (connection_exit_keeps_conns _ _ (H _)). reflexivity.
Qed.

(** ** C5 *)

(** C5. The claim fails on the code: each of [save_dataframe],
    [load_dataframe] and [list_tables] opens a connection of its own, and
    when it returns, normally or with an exception, that connection is
    still open: leaving the [with] block ends the transaction and closes
    nothing, and no statement calls [close]. *)
Theorem connection_left_open (self : DBManager) (w : Sqlite) :
  (forall df t pol idx,
      open_conns (snd (save_dataframe self df t pol idx w))
      = conns_after_connect w (_db_path self))
  /\ (forall t col,
         open_conns (snd (load_dataframe self t col w))
         = conns_after_connect w (_db_path self))
  /\ open_conns (snd (list_tables self w)) = conns_after_connect w (_db_path self).
Proof.
  repeat split; intros.
  - apply with_connection_conns. intro c. keeps_steps.
  - apply with_connection_conns. intro c. keeps_steps.
  - apply with_connection_conns. intro c. keeps_steps.
Qed.

(** On an empty database that can be opened, listing the tables returns
    with connection 0 open. *)
Example list_tables_leaves_connection :
  open_conns (snd (list_tables Fixture.db Fixture.empty_storage)) = [(0%nat, "evals.db")]
  /\ trace (snd (list_tables Fixture.db Fixture.empty_storage))
     = [EvConnect 0 "evals.db"; EvExecute 0 catalogue_sql; EvCommit 0].
Proof. split; reflexivity. Qed.

(** ** C8 *)

(** [load_dataframe] in one piece. *)
Lemma load_dataframe_run self t col w :
  load_dataframe self t col w
  = let h := next_handle w in
    let p := _db_path self in
    let w1 := logged (EvConnect h p) w in
    if unopenable w p then
      (Raise (OperationalError "unable to open database file"), w1)
    else
      let w2 := logged (EvReadSql h ("SELECT * FROM " ++ t)) (opened p w1) in
      match rbind (query w2 p ("SELECT * FROM " ++ t))
                  (fun df => set_index df (default "id" col)) with
      | Ok df => (Ok df, logged (EvCommit h) w2)
      | Raise e => (Raise e, logged (EvRollback h) w2)
      end.
Proof.
  unfold load_dataframe, with_connection, read_sql.
  unfold bind, connect, connection_exit, log, modify, get, lift.
  cbv zeta. destruct (unopenable w (_db_path self)); [reflexivity|].
  cbn [fst snd].
  destruct (query _ _ _) as [df|e]; cbn [rbind]; [|reflexivity].
  destruct (set_index df _); reflexivity.
Qed.

Lemma full_scan_of_select t :
  full_scan_of ("SELECT * FROM " ++ t)
  = if plain_table_name t then Some t else None.
Proof.
  unfold full_scan_of, strip_string_prefix. simpl.
  rewrite string_of_list_ascii_of_string. reflexivity.
Qed.

(** C8. [load_dataframe] hands to the engine the text [SELECT * FROM]
    followed by the table name as it was given, and nothing else; and a
    table name that is more than a plain name is read by the engine as
    part of the statement, so that the outcome is the engine's answer to
    the whole text. *)
Theorem load_dataframe_statement (self : DBManager) (table_name : string)
  (index_col : option string) (w : Sqlite) :
  let h := next_handle w in
  let path := _db_path self in
  let sql := "SELECT * FROM " ++ table_name in
  let out := load_dataframe self table_name index_col w in
  trace (snd out)
  = (trace w
     ++ EvConnect h path
        :: (if unopenable w path then []
            else [EvReadSql h sql;
                  if is_ok (fst out) then EvCommit h else EvRollback h]))%list
  /\ (unopenable w path = false ->
      plain_table_name table_name = false ->
      fst out
      = match other_sql w (database_at w path) sql with
        | inr t => set_index (frame_of_table t) (default "id" index_col)
        | inl why =>
            Raise (DatabaseError ("Execution failed on sql '" ++ sql ++ "': " ++ why))
        end).
Proof.
  cbv zeta. rewrite load_dataframe_run. cbv zeta. split.
  - destruct (unopenable w (_db_path self)); [reflexivity|].
    destruct (rbind _ _); cbn [fst snd is_ok logged opened trace];
      now rewrite <- !app_assoc.
  - intros Ho Hp. rewrite Ho. cbn [fst].
    unfold query. rewrite full_scan_of_select, Hp.
    unfold database_at; cbn [db_files other_sql logged opened].
    destruct (other_sql _ _ _); cbn [rbind]; [reflexivity|].
    destruct (set_index _ _); reflexivity.
Qed.

(** A table name that carries a condition: the engine is asked for the
    rows that satisfy it. *)
Lemma load_dataframe_statement_witness :
  fst (load_dataframe Fixture.db "evaluations WHERE tokens_used > 40" None
         Fixture.empty_storage)
  = Raise (DatabaseError
      "Execution failed on sql 'SELECT * FROM evaluations WHERE tokens_used > 40': syntax error").
Proof.
  destruct (load_dataframe_statement Fixture.db
              "evaluations WHERE tokens_used > 40" None Fixture.empty_storage)
    as [_ H].
  rewrite H; reflexivity.
Defined.

(** ** C10 *)

(** C10. A policy left out of [save_dataframe] is [replace], one left out
    of [save_to_db] is [append]; and on the table that a first save has
    made, with one row, the adapter's default leaves one row where the
    driver's default leaves two. *)
Theorem save_defaults_differ :
  (forall self df t idx w,
      save_dataframe self df t None idx w
      = save_dataframe self df t (Some "replace") idx w)
  /\ (forall db t s, save_to_db db t None s = save_to_db db t (Some "append") s)
  /\ (let s := Fixture.saved_once in
      List.length (stored_rows (snd s) Fixture.db "evaluations") = 1%nat
      /\ List.length
           (stored_rows
              (snd (save_dataframe Fixture.db Fixture.results_frame
                      "evaluations" None None (snd s)))
              Fixture.db "evaluations") = 1%nat
      /\ List.length
           (stored_rows (snd (snd (save_to_db Fixture.db None None s)))
              Fixture.db "evaluations") = 2%nat).
Proof.
  split; [reflexivity|]. split; [reflexivity|].
  vm_compute. repeat split.
Qed.

(** ** C4 *)





















(** ** The results table under sequences of operations *)

Lemma set_nth_length {A} n (v : A) l : List.length (set_nth n v l) = List.length l.
Proof.
  revert n. induction l as [|x l IH]; intros [|n]; simpl; auto.
Qed.

Lemma nth_set_nth_same {A} n (v d : A) l :
  (n < List.length l)%nat -> nth n (set_nth n v l) d = v.
Proof.
  revert n. induction l as [|x l IH]; intros [|n]; simpl; intro H;
    try lia; auto.
  apply IH. lia.
Qed.

Lemma nth_set_nth_other {A} n m (v d : A) l :
  n <> m -> nth m (set_nth n v l) d = nth m l d.
Proof.
  revert n m. induction l as [|x l IH]; intros [|n] [|m]; simpl; intro H;
    try congruence; auto.
Qed.

Lemma set_nth_nth {A} n (d : A) l : set_nth n (nth n l d) l = l.
Proof.
  revert n. induction l as [|x l IH]; intros [|n]; simpl; auto.
  now rewrite IH.
Qed.

Lemma zip_set_same n rs :
  zip_set n rs (map (fun r => nth n (snd r) NA) rs) = rs.
Proof.
  induction rs as [|[l cells] rs IH]; simpl; auto.
  now rewrite set_nth_nth, IH.
Qed.

Lemma traverse_temporal (vs : list Cell) :
  Forall (fun v => is_temporal v = true) vs -> traverse to_datetime64 vs = Ok vs.
Proof.
  induction 1 as [|v vs Hv _ IH]; simpl; auto.
  destruct v; simpl in Hv; try discriminate; simpl; now rewrite IH.
Qed.

Lemma has_label_false idx df :
  Forall (fun l => exists i, l = CInt i) (labels df) ->
  has_label (CInt idx) df = false -> ~ In (CInt idx) (labels df).
Proof.
  unfold has_label, labels. induction (rows df) as [|[l c] rs IH]; simpl.
  - auto.
  - intros HF. inversion HF as [|? ? [i ->] HF']; subst.
    rewrite orb_false_iff. simpl. intros [Hne Hrest] [Heq|Hin].
    + inversion Heq; subst. rewrite Z.eqb_refl in Hne. discriminate.
    + now apply IH.
Qed.

Lemma labels_map_update (f : Cell * list Cell -> list Cell) (g : Cell -> bool) rs :
  map fst (map (fun r : Cell * list Cell => if g (fst r) then (fst r, f r) else r) rs)
  = map fst rs.
Proof.
  induction rs as [|r rs IH]; simpl; auto.
  rewrite IH. now destruct (g (fst r)).
Qed.

Lemma names_map_update (f : string * Dtype -> Dtype) (g : string -> bool) cs :
  map fst (map (fun c : string * Dtype => if g (fst c) then (fst c, f c) else c) cs)
  = map fst cs.
Proof.
  induction cs as [|c cs IH]; simpl; auto.
  rewrite IH. now destruct (g (fst c)).
Qed.

Lemma NoDup_snoc {A} (l : list A) (a : A) :
  NoDup l -> ~ In a l -> NoDup (l ++ [a]).
Proof.
  induction 1 as [|x l Hx Hl IH]; simpl; intro Ha.
  - constructor; [auto|constructor].
  - constructor.
    + rewrite in_app_iff. simpl. intuition congruence.
    + apply IH. tauto.
Qed.

Lemma tracked_mono E E' df : incl E E' -> tracked E df -> tracked E' df.
Proof.
  intros Hi (Hs & Hn & Hl & Ht). repeat split; try apply Hs; auto.
  eapply Forall_impl; [|exact Hl]. intros l (i & -> & Hin). eauto.
Qed.

Lemma tracked_init model caps root : tracked [] (df_evaluations (init model caps root)).
Proof.
  repeat split; simpl; constructor.
Qed.

(** One assignment through [.loc] keeps the table tracked. *)
Lemma loc_setitem_tracked E df idx col v :
  tracked E df -> In idx E -> In col result_columns ->
  (col = "timestamp" -> is_temporal v = true) ->
  tracked E (loc_setitem df (CInt idx) col v).
Proof.
  intros ((Hname & Hcols & Hlen) & Hnd & Hlab & Htemp) Hidx Hcol Hv.
  assert (Hncols : List.length (columns df) = 6%nat).
  { unfold column_names in Hcols.
    rewrite <- (length_map fst), Hcols. reflexivity. }
  set (df1 := enlarge_rows df (CInt idx)).
  assert (H1 : index_name df1 = index_name df /\ columns df1 = columns df
               /\ Forall (fun r => List.length (snd r) = 6%nat) (rows df1)
               /\ NoDup (labels df1)
               /\ Forall (fun l => exists i, l = CInt i /\ In i E) (labels df1)
               /\ Forall (fun r => is_temporal (nth 5 (snd r) NA) = true) (rows df1)).
  { unfold df1, enlarge_rows.
    destruct (has_label (CInt idx) df) eqn:Hhas; [now repeat split|].
    simpl. repeat split.
    - apply Forall_app. split; [exact Hlen|]. constructor; [|constructor].
      simpl. now rewrite length_map.
    - unfold labels. simpl. rewrite map_app. simpl.
      apply NoDup_snoc; [exact Hnd|].
      apply has_label_false; [|exact Hhas].
      eapply Forall_impl; [|exact Hlab]. intros l (i & -> & _). eauto.
    - unfold labels. simpl. rewrite map_app. apply Forall_app.
      split; [exact Hlab|]. constructor; [|constructor].
      exists idx. split; [reflexivity|exact Hidx].
    - apply Forall_app. split; [exact Htemp|]. constructor; [|constructor].
      simpl. destruct (columns df) as [|c0 [|c1 [|c2 [|c3 [|c4 [|c5 cs]]]]]];
        simpl in Hncols; try discriminate. reflexivity. }
  destruct H1 as (Hn1 & Hc1 & Hl1 & Hd1 & Hb1 & Ht1).
  assert (Hnames1 : column_names df1 = result_columns).
  { unfold column_names. rewrite Hc1. exact Hcols. }
  unfold loc_setitem. fold df1.
  assert (Hpos : exists n, position col result_columns = Some n
                           /\ (n < 6)%nat /\ (n = 5%nat -> col = "timestamp")).
  { simpl in Hcol.
    destruct Hcol as [<-|[<-|[<-|[<-|[<-|[<-|[]]]]]]]; simpl;
      eexists; (split; [reflexivity|split; [lia|]]); intro; try reflexivity;
      discriminate. }
  destruct Hpos as (n & Hpos & Hn6 & Hn5).
  assert (Hec : enlarge_columns df1 col = df1).
  { unfold enlarge_columns. now rewrite Hnames1, Hpos. }
  rewrite Hec, Hnames1, Hpos.
  unfold tracked, results_shaped, labels, column_names in *.
  cbn [index_name columns rows].
  rewrite (names_map_update (fun c => dtype_after (snd c) v) (String.eqb col)).
  rewrite (labels_map_update (fun r => set_nth n v (snd r)) (label_eqb (CInt idx))).
  rewrite !Forall_map.
  repeat split.
  - congruence.
  - congruence.
  - eapply Forall_impl; [|exact Hl1].
    intros r Hr. destruct (label_eqb (CInt idx) (fst r)); cbn [snd]; auto.
    now rewrite set_nth_length.
  - exact Hd1.
  - rewrite Forall_map in Hb1. exact Hb1.
  - rewrite Forall_forall in Ht1, Hl1. apply Forall_forall. intros r Hr.
    destruct (label_eqb (CInt idx) (fst r)); cbn [snd]; [|now apply Ht1].
    destruct (Nat.eq_dec n 5) as [->|Hne].
    + rewrite nth_set_nth_same; [now apply Hv, Hn5|].
      rewrite (Hl1 r Hr). lia.
    + rewrite nth_set_nth_other; [now apply Ht1|exact Hne].
Qed.

Section Preserves.
Context {St : Type} (P : St -> Prop).

Lemma preserves_lift {A} (r : Res A) : preserves P (lift r).
Proof. intros s H. exact H. Qed.

Lemma preserves_get : preserves P get.
Proof. intros s H. exact H. Qed.

Lemma preserves_bind {A B} (m : M St A) (k : A -> M St B) :
  preserves P m -> (forall a, preserves P (k a)) -> preserves P (bind m k).
Proof.
  intros Hm Hk s Hs. unfold bind.
  specialize (Hm s Hs). destruct (m s) as [[a|e] s']; simpl in *.
  - now apply Hk.
  - exact Hm.
Qed.
End Preserves.

Lemma store_tracked E idx col v :
  In idx E -> In col result_columns ->
  (col = "timestamp" -> is_temporal v = true) ->
  preserves (fun s => tracked E (results_of s)) (store idx col v).
Proof.
  intros Hi Hc Hv [d w] H. unfold store, modify, results_of in *. simpl in *.
  now apply loc_setitem_tracked.
Qed.

Lemma timestamp_now_tracked E :
  preserves (fun s => tracked E (results_of s)) timestamp_now.
Proof. intros [d w] H. exact H. Qed.

Lemma record_result_tracked E idx m rec result response :
  In idx E ->
  preserves (fun s => tracked E (results_of s))
            (record_result idx m rec result response).
Proof.
  intro Hi. unfold record_result.
  repeat first
    [ apply preserves_bind; [ | intro ]
    | apply preserves_lift | apply preserves_get
    | apply timestamp_now_tracked
    | apply store_tracked;
      [ exact Hi | simpl; tauto | intro; try reflexivity; discriminate ] ].
Qed.

(** An evaluation keeps the table tracked, its own index included. *)
Lemma evaluate_capture_tracked E idx s :
  tracked E (results_of s) ->
  tracked (E ++ [idx]) (results_of (snd (evaluate_capture idx s))).
Proof.
  intro H.
  assert (H' : tracked (E ++ [idx]) (results_of s)).
  { eapply tracked_mono; [|exact H]. apply incl_appl, incl_refl. }
  clear H. rewrite evaluate_capture_run.
  destruct (loc (_df_captures (fst s)) (CInt idx)) as [rec|e]; [|exact H'].
  destruct (rbind _ _) as [p|e]; [|exact H'].
  pose proof (process_capture_keeps_driver p s) as Hd.
  destruct (_process_capture p s) as [[result|e] s1]; simpl in Hd.
  - assert (H1 : tracked (E ++ [idx]) (results_of s1)).
    { unfold results_of in *. now rewrite Hd. }
    destruct (loads (response result)) as [j|e]; [|exact H1].
    apply record_result_tracked; [|exact H1].
    apply in_or_app. right. now left.
  - unfold results_of in *. simpl. now rewrite Hd.
Qed.

Lemma getitem_timestamp E df :
  tracked E df ->
  exists d, getitem df "timestamp"
            = Ok (d, map (fun r => nth 5 (snd r) NA) (rows df)).
Proof.
  intros ((_ & Hc & _) & _). unfold getitem. rewrite Hc. simpl. eauto.
Qed.

Lemma setitem_timestamp E df :
  tracked E df ->
  setitem df "timestamp" (Ddatetime64ns, map (fun r => nth 5 (snd r) NA) (rows df))
  = retyped df.
Proof.
  intros ((_ & Hc & _) & _). unfold setitem, enlarge_columns.
  rewrite Hc. simpl. rewrite Hc. simpl. unfold retyped. f_equal.
  apply zip_set_same.
Qed.

Lemma retyped_tracked E df : tracked E df -> tracked E (retyped df).
Proof.
  intros ((Hn & Hc & Hl) & Hd & Hb & Ht).
  unfold tracked, results_shaped, labels, column_names, retyped in *.
  cbn [index_name columns rows].
  rewrite (names_map_update (fun _ => Ddatetime64ns) (String.eqb "timestamp")).
  repeat split; assumption.
Qed.

(** On a tracked table, [save_to_db] retypes the [timestamp] column and
    changes nothing else of the driver, whatever happens to the save. *)
Lemma save_to_db_driver E db t r ev q :
  tracked E (df_evaluations ev) ->
  fst (snd (save_to_db db t r (ev, q))) = set_evaluations (retyped (df_evaluations ev)) ev.
Proof.
  intro H. destruct (getitem_timestamp _ _ H) as (d & Hg).
  unfold save_to_db. unfold bind at 1, get at 1. cbn [fst snd].
  unfold bind at 1, lift at 1. rewrite Hg.
  unfold bind at 1, lift at 1, astype_datetime64. cbn [snd].
  rewrite traverse_temporal.
  2:{ destruct H as (_ & _ & _ & Ht). rewrite Forall_map. exact Ht. }
  cbn [rbind]. unfold bind at 1, modify at 1. cbn [fst snd].
  rewrite (setitem_timestamp _ _ H).
  unfold bind at 1, get at 1. cbn [fst snd df_evaluations set_evaluations].
  unfold bind, lift, on_storage.
  destruct (reset_index _); cbn [fst snd]; [|reflexivity].
  destruct (save_dataframe _ _ _ _ _ _) as [r0 w0]. reflexivity.
Qed.

Lemma step_tracked E op s :
  tracked E (df_evaluations (driver s)) ->
  tracked (E ++ evaluated [op]) (df_evaluations (driver (step op s))).
Proof.
  intro H. destruct op as [idx|db t r|db df t p i|db t c|db]; simpl;
    try (rewrite app_nil_r; exact H).
  - pose proof (evaluate_capture_tracked E idx (driver s, world s) H) as K.
    destruct (evaluate_capture idx (driver s, world s)) as [r [d w]]. exact K.
  - rewrite app_nil_r.
    pose proof (save_to_db_driver E db t r (driver s) (storage s) H) as K.
    destruct (save_to_db db t r (driver s, storage s)) as [r0 [d q]].
    simpl in *. subst d. simpl. now apply retyped_tracked.
Qed.

Lemma run_tracked ops : forall E s,
  tracked E (df_evaluations (driver s)) ->
  tracked (E ++ evaluated ops) (df_evaluations (driver (run ops s))).
Proof.
  induction ops as [|op ops IH]; intros E s H; simpl.
  - now rewrite app_nil_r.
  - apply (step_tracked E op s) in H. apply IH in H.
    eapply tracked_mono; [|exact H].
    rewrite <- app_assoc. apply incl_app; [apply incl_appl, incl_refl|].
    apply incl_appr. destruct op; simpl; apply incl_refl.
Qed.

(** ** C2 *)

(** C2, as stated: no operation other than the evaluation changes the
    results table. [save_to_db] does: on a driver that has just been
    constructed it turns the [timestamp] column from [object] to
    [datetime64[ns]]. *)
Lemma save_to_db_changes_results :
  let s := fresh "gpt-4o" Fixture.captures "captures"
             (Fixture.world_with Fixture.conforming) Fixture.empty_storage in
  df_evaluations (driver (step (OpSaveToDb Fixture.db None None) s))
  <> df_evaluations (driver s).
Proof. vm_compute. discriminate. Qed.

(** C2, amended. After any sequence of operations on a driver that
    started fresh, no two rows of the results table share a [test_id] and
    every [test_id] is the index of an evaluation made before; an
    operation other than an evaluation leaves the index name, the column
    names and the rows (labels, order and cells) of the table as they
    are; the adapter's operations leave the table as it is, and
    [save_to_db] changes it in one way, by declaring the [timestamp]
    column [datetime64[ns]]. *)
Theorem results_rows_come_from_evaluations
  (model_name : string) (captures : DataFrame) (root : string)
  (w : World) (q : Sqlite) (ops : list Op) :
  let s := run ops (fresh model_name captures root w q) in
  let df := df_evaluations (driver s) in
  NoDup (labels df)
  /\ Forall (fun l => exists idx, l = CInt idx /\ In idx (evaluated ops)) (labels df)
  /\ (forall op, is_evaluate op = false ->
        let df' := df_evaluations (driver (step op s)) in
        index_name df' = index_name df
        /\ column_names df' = column_names df
        /\ rows df' = rows df
        /\ df' = if is_save_to_db op then retyped df else df).
Proof.
  cbv zeta.
  pose proof (run_tracked ops [] (fresh model_name captures root w q)
                (tracked_init _ _ _)) as H.
  simpl app in H.
  set (s := run ops (fresh model_name captures root w q)) in *.
  split; [apply H|]. split; [apply H|].
  intros op Hop.
  assert (K : df_evaluations (driver (step op s))
              = if is_save_to_db op then retyped (df_evaluations (driver s))
                else df_evaluations (driver s)).
  { destruct op as [idx|db t r|db df t p i|db t c|db]; simpl in *;
      try discriminate; try reflexivity.
    pose proof (save_to_db_driver _ db t r (driver s) (storage s) H) as K.
    destruct (save_to_db db t r (driver s, storage s)) as [r0 [d q0]].
    simpl in *. now subst d. }
  rewrite K. destruct (is_save_to_db op); repeat split.
  unfold column_names, retyped. cbn [columns].
  apply (names_map_update (fun _ => Ddatetime64ns) (String.eqb "timestamp")).
Qed.

(** Two evaluations of capture 1 and a save: one row, labelled 1, which
    the save leaves in place. *)
Lemma results_rows_come_from_evaluations_witness :
  let s := run [OpEvaluate 1; OpEvaluate 1]
               (fresh "gpt-4o" Fixture.captures "captures"
                  (Fixture.world_with Fixture.conforming) Fixture.empty_storage) in
  rows (df_evaluations (driver (step (OpSaveToDb Fixture.db None None) s)))
  = rows (df_evaluations (driver s)).
Proof.
  destruct (results_rows_come_from_evaluations "gpt-4o" Fixture.captures
              "captures" (Fixture.world_with Fixture.conforming)
              Fixture.empty_storage [OpEvaluate 1; OpEvaluate 1])
    as (_ & _ & H).
  destruct (H (OpSaveToDb Fixture.db None None)) as (_ & _ & Hr & _).
  - reflexivity.
  - exact Hr.
Defined.

(** ** Saving and loading *)

Lemma assoc_assoc_set {A} k (v : A) l : assoc k (assoc_set k v l) = Some v.
Proof.
  induction l as [|[k' v'] l IH]; simpl.
  - now rewrite String.eqb_refl.
  - destruct (String.eqb k k') eqn:E; simpl.
    + now rewrite String.eqb_refl.
    + now rewrite E.
Qed.

Lemma database_at_written p d w : database_at (written p d w) p = d.
Proof. unfold database_at, written. simpl. now rewrite assoc_assoc_set. Qed.

Lemma find_table_app_none t d d' :
  find_table t d = None -> find_table t (d ++ d')%list = find_table t d'.
Proof.
  induction d as [|[n x] d IH]; simpl; auto.
  destruct (String.eqb (lowercase t) (lowercase n)); [discriminate|exact IH].
Qed.

Lemma find_table_self t x d : find_table t ((t, x) :: d) = Some x.
Proof. simpl. now rewrite String.eqb_refl. Qed.

Lemma find_table_filter_none t f d :
  find_table t d = None -> find_table t (filter f d) = None.
Proof.
  induction d as [|[n x] d IH]; simpl; auto.
  destruct (String.eqb (lowercase t) (lowercase n)) eqn:E; [discriminate|].
  intro H. destruct (f (n, x)); simpl; [rewrite E|]; auto.
Qed.

Lemma has_table_find_table t n d :
  has_table t d = true -> lowercase n = lowercase t -> find_table n d <> None.
Proof.
  unfold has_table. induction d as [|[m x] d IH]; simpl; [discriminate|].
  intros H Hl. destruct (String.eqb t m) eqn:E.
  - apply String.eqb_eq in E. subst m. rewrite Hl, String.eqb_refl. discriminate.
  - simpl in H. destruct (String.eqb (lowercase n) (lowercase m));
      [discriminate|]. now apply IH.
Qed.

(** In a sound catalogue, dropping a table by its exact name leaves no
    table that answers to that name. *)
Lemma find_table_dropped t d :
  catalogue_ok d = true -> has_table t d = true ->
  find_table t (drop_table t d) = None.
Proof.
  unfold has_table, drop_table.
  induction d as [|[n x] d IH]; simpl; [discriminate|].
  destruct (find_table n d) eqn:Hn; [discriminate|]. intros Hc Hh.
  destruct (String.eqb t n) eqn:E; simpl.
  - apply String.eqb_eq in E. subst n.
    now apply find_table_filter_none.
  - simpl in Hh. destruct (String.eqb (lowercase t) (lowercase n)) eqn:El.
    + apply String.eqb_eq in El. exfalso.
      apply (has_table_find_table t n d); auto.
    + now apply IH.
Qed.

(** A successful [to_sql] that replaces, or finds no table to add to,
    leaves under the name a table made of the frame alone. *)
Lemma to_sql_fresh_table df t c pol w w' :
  to_sql df t c pol false w = (Ok tt, w') ->
  catalogue_ok (database_at w (snd c)) = true ->
  (pol = "replace" \/ find_table t (database_at w (snd c)) = None) ->
  exists recs,
    traverse (fun r => adapt_row (map snd (columns df)) (snd r)) (rows df) = Ok recs
    /\ find_table t (database_at w' (snd c))
       = Some {| tcolumns := column_names df; trows := recs |}
    /\ unopenable w' = unopenable w.
Proof.
  unfold to_sql. unfold bind at 1, log, modify. cbn [fst snd].
  destruct (negb (valid_if_exists pol)); [discriminate|].
  unfold bind at 1, lift at 1. unfold bind at 1, get at 1.
  set (w0 := logged _ w).
  assert (Hd : database_at w0 (snd c) = database_at w (snd c)) by reflexivity.
  rewrite Hd. set (d := database_at w (snd c)).
  intros Hrun Hok Hcase.
  destruct (has_table t d) eqn:Hhas.
  - assert (Hpol : pol = "replace").
    { destruct Hcase as [Hp|Hf]; [exact Hp|].
      exfalso. apply (has_table_find_table t t d Hhas eq_refl Hf). }
    subst pol. simpl in Hrun.
    unfold bind, lift, write_database, modify in Hrun.
    destruct (traverse _ (rows df)) as [recs|e]; [|discriminate].
    inversion Hrun; subst w'. exists recs. split; [reflexivity|].
    rewrite database_at_written. split; [|reflexivity].
    rewrite find_table_app_none by now apply find_table_dropped.
    apply find_table_self.
  - destruct (find_table t d) eqn:Hfind; [discriminate|].
    destruct (starts_with "sqlite_" (lowercase t)); [discriminate|].
    unfold bind, lift, write_database, modify in Hrun.
    destruct (traverse _ (rows df)) as [recs|e]; [|discriminate].
    inversion Hrun; subst w'. exists recs. split; [reflexivity|].
    rewrite database_at_written. split; [|reflexivity].
    rewrite find_table_app_none by exact Hfind.
    apply find_table_self.
Qed.

(** [save_dataframe] in one piece, for a frame written without its
    index. *)
Lemma save_dataframe_run self df t pol w :
  save_dataframe self df t pol None w
  = let h := next_handle w in
    let p := _db_path self in
    let w1 := logged (EvConnect h p) w in
    if unopenable w p then
      (Raise (OperationalError "unable to open database file"), w1)
    else
      match to_sql df t (h, p) (default "replace" pol) false (opened p w1) with
      | (Ok _, w2) => (Ok tt, logged (EvCommit h) (logged (EvCommit h) w2))
      | (Raise e, w2) => (Raise e, logged (EvRollback h) w2)
      end.
Proof.
  unfold save_dataframe, with_connection.
  unfold bind at 1, connect. cbv zeta.
  destruct (unopenable w (_db_path self)); [reflexivity|].
  unfold connection_exit, bind, commit, log, modify. cbn [fst snd default].
  destruct (to_sql _ _ _ _ _ _) as [[[]|e] w2]; reflexivity.
Qed.






Lemma zip_set_lengths n k rs vs :
  Forall (fun r : Cell * list Cell => List.length (snd r) = k) rs ->
  Forall (fun r : Cell * list Cell => List.length (snd r) = k) (zip_set n rs vs).
Proof.
  intro H. revert vs. induction H as [|r rs Hr H IH]; intros [|v vs];
    cbn [zip_set]; try (constructor; assumption).
  constructor; [|apply IH]. cbn [snd]. now rewrite set_nth_length.
Qed.

Lemma setitem_timestamp_shaped df s :
  results_shaped df -> results_shaped (setitem df "timestamp" s).
Proof.
  intros (Hn & Hc & Hl). unfold setitem, enlarge_columns.
  rewrite Hc. simpl. rewrite Hc. simpl.
  unfold results_shaped, column_names. cbn [index_name columns rows].
  rewrite (names_map_update (fun _ => fst s) (String.eqb "timestamp")).
  repeat split; auto. now apply zip_set_lengths.
Qed.

(** What a successful [save_to_db] has done: the table it leaves in the
    driver is shaped as before, and it is this table, with its index as
    first column, that went to the adapter. *)
Lemma save_to_db_ok db t rule ev q ev' q' :
  results_shaped (df_evaluations ev) ->
  save_to_db db (Some t) rule (ev, q) = (Ok tt, (ev', q')) ->
  let df' := df_evaluations ev' in
  let data := {| index_name := None;
                 columns := ("test_id", Dobject) :: columns df';
                 rows := combine (range_from 0 (List.length (rows df')))
                                 (map (fun r => fst r :: snd r) (rows df')) |} in
  results_shaped df'
  /\ save_dataframe db data t (Some (default "append" rule)) None q = (Ok tt, q').
Proof.
  intros Hs. unfold save_to_db.
  unfold bind at 1, get at 1. cbn [fst snd].
  unfold bind at 1, lift at 1.
  destruct (getitem (df_evaluations ev) "timestamp") as [ts|e]; [|discriminate].
  unfold bind at 1, lift at 1.
  destruct (astype_datetime64 ts) as [ts'|e]; [|discriminate].
  unfold bind at 1, modify at 1. cbn [fst snd].
  unfold bind at 1, get at 1. cbn [fst snd df_evaluations set_evaluations].
  pose proof (setitem_timestamp_shaped _ ts' Hs) as Hs'.
  set (df' := setitem (df_evaluations ev) "timestamp" ts') in *.
  unfold bind, lift, on_storage.
  assert (Hr : reset_index df'
               = Ok {| index_name := None;
                       columns := ("test_id", Dobject) :: columns df';
                       rows := combine (range_from 0 (List.length (rows df')))
                                       (map (fun r => fst r :: snd r) (rows df')) |}).
  { destruct Hs' as (Hn & Hc & _). unfold reset_index. rewrite Hn, Hc.
    reflexivity. }
  rewrite Hr. cbn [fst snd default].
  destruct (save_dataframe _ _ _ _ _ _) as [r0 w0] eqn:Hsave.
  intro H. inversion H; subst. cbn [df_evaluations set_evaluations].
  split; [exact Hs'|exact Hsave].
Qed.



(** ** C6 *)




(* ===================================================================== *)
(** * Further properties of the driver                                    *)
(* ===================================================================== *)

Lemma label_eqb_refl idx : label_eqb (CInt idx) (CInt idx) = true.
Proof. simpl. apply Z.eqb_refl. Qed.

Lemma enlarge_rows_names df l : column_names (enlarge_rows df l) = column_names df.
Proof. unfold enlarge_rows. now destruct (has_label l df). Qed.

Lemma enlarge_rows_index_name df l : index_name (enlarge_rows df l) = index_name df.
Proof. unfold enlarge_rows. now destruct (has_label l df). Qed.

(** An assignment through [.loc] into one of the six columns: what it
    does to the frame. *)
Lemma loc_setitem_shape df l col v n :
  column_names df = result_columns ->
  position col result_columns = Some n ->
  index_name (loc_setitem df l col v) = index_name df
  /\ column_names (loc_setitem df l col v) = result_columns
  /\ rows (loc_setitem df l col v)
     = map (fun r => if label_eqb l (fst r)
                     then (fst r, set_nth n v (snd r)) else r)
           (rows (enlarge_rows df l)).
Proof.
  intros Hc Hp. unfold loc_setitem.
  assert (He : enlarge_columns (enlarge_rows df l) col = enlarge_rows df l).
  { unfold enlarge_columns. now rewrite enlarge_rows_names, Hc, Hp. }
  rewrite He, enlarge_rows_names, Hc, Hp.
  unfold column_names. cbn [index_name columns rows].
  rewrite (names_map_update (fun c => dtype_after (snd c) v) (String.eqb col)).
  fold (column_names (enlarge_rows df l)).
  now rewrite enlarge_rows_names, enlarge_rows_index_name.
Qed.









(** ** X1 *)



(** ** X2 *)

Lemma filter_map_update (p : Cell -> bool) (f : Cell * list Cell -> list Cell) rs :
  filter (fun r => negb (p (fst r)))
         (map (fun r : Cell * list Cell => if p (fst r) then (fst r, f r) else r) rs)
  = filter (fun r => negb (p (fst r))) rs.
Proof.
  induction rs as [|r rs IH]; simpl; auto.
  destruct (p (fst r)) eqn:E; simpl; rewrite E; simpl; now rewrite IH.
Qed.

Lemma other_rows_enlarged idx df :
  other_rows (CInt idx) (enlarge_rows df (CInt idx)) = other_rows (CInt idx) df.
Proof.
  unfold other_rows, enlarge_rows.
  destruct (has_label (CInt idx) df); [reflexivity|].
  cbn [rows]. rewrite filter_app. cbn [filter fst].
  rewrite label_eqb_refl. cbn [negb]. apply app_nil_r.
Qed.

Lemma existsb_over_map {A B} (f : B -> bool) (g : A -> B) l :
  existsb f (map g l) = existsb (fun x => f (g x)) l.
Proof. induction l; simpl; congruence. Qed.

Lemma loc_setitem_recording idx df0 df col v n :
  position col result_columns = Some n ->
  recording idx df0 df -> recording idx df0 (loc_setitem df (CInt idx) col v).
Proof.
  intros Hp (Hc & Hn & Ho & Hl).
  destruct (loc_setitem_shape df (CInt idx) col v n Hc Hp) as (Hn' & Hc' & Hr').
  assert (Hlab : labels (loc_setitem df (CInt idx) col v)
                 = labels (enlarge_rows df (CInt idx))).
  { unfold labels. rewrite Hr'.
    apply (labels_map_update (fun r => set_nth n v (snd r)) (label_eqb (CInt idx))). }
  repeat split.
  - exact Hc'.
  - congruence.
  - unfold other_rows. rewrite Hr'.
    rewrite (filter_map_update (label_eqb (CInt idx)) (fun r => set_nth n v (snd r))).
    fold (other_rows (CInt idx) (enlarge_rows df (CInt idx))).
    now rewrite other_rows_enlarged.
  - rewrite Hlab. unfold enlarge_rows.
    destruct (has_label (CInt idx) df) eqn:Hh; [exact Hl|].
    destruct Hl as [Hl|(_ & Hl)].
    + right. split.
      * unfold has_label in *. unfold labels in Hl.
        rewrite <- Hh. clear - Hl.
        revert Hl. generalize (rows df0), (rows df).
        induction l as [|r rs IH]; intros [|r' rs']; simpl; try discriminate; auto.
        intro H. inversion H as [[H1 H2]]. rewrite H1. f_equal. now apply IH.
      * unfold labels in *. cbn [rows]. rewrite map_app. cbn [map fst].
        now rewrite Hl.
    + exfalso. unfold has_label, labels in *.
      assert (K : existsb (fun l => label_eqb (CInt idx) l) (map fst (rows df)) = true).
      { rewrite Hl, existsb_app. cbn [existsb]. rewrite label_eqb_refl.
        now rewrite orb_true_r. }
      rewrite existsb_over_map in K. congruence.
Qed.

Lemma store_recording idx df0 col v n :
  position col result_columns = Some n ->
  preserves (fun s => recording idx df0 (results_of s)) (store idx col v).
Proof.
  intros Hp [d w] H. unfold store, modify, results_of in *. simpl in *.
  now apply (loc_setitem_recording idx df0 _ col v n).
Qed.

Lemma record_result_recording idx df0 m rec result response :
  preserves (fun s => recording idx df0 (results_of s))
            (record_result idx m rec result response).
Proof.
  unfold record_result.
  repeat first
    [ apply preserves_bind; [ | intro ]
    | apply preserves_lift | apply preserves_get
    | intros [? ?] ?; assumption
    | eapply store_recording; reflexivity ].
Qed.

(** X2. An evaluation writes to one row only. On a results table of the
    constructor's shape, whether the call succeeds or fails, the rows of
    the other indices are afterwards what they were, in the same order;
    the index name and the columns are the same; and the labels are the
    same, or, when the index had no row, the same with the index added
    last. The table never loses a row. *)
Theorem evaluate_capture_touches_one_row (idx : Z) (s : EvalState) :
  results_shaped (results_of s) ->
  let df := results_of s in
  let df' := results_of (snd (evaluate_capture idx s)) in
  other_rows (CInt idx) df' = other_rows (CInt idx) df
  /\ column_names df' = column_names df
  /\ index_name df' = index_name df
  /\ (labels df' = labels df
      \/ (has_label (CInt idx) df = false
          /\ labels df' = (labels df ++ [CInt idx])%list)).
Proof.
  intros (Hn & Hc & Hl). cbv zeta.
  assert (H0 : recording idx (results_of s) (results_of s)).
  { repeat split; auto. }
  assert (H : recording idx (results_of s)
                (results_of (snd (evaluate_capture idx s)))).
  { rewrite evaluate_capture_run.
    destruct (loc (_df_captures (fst s)) (CInt idx)) as [rec|e]; [|exact H0].
    destruct (rbind _ _) as [p|e]; [|exact H0].
    pose proof (process_capture_keeps_driver p s) as Hd.
    destruct (_process_capture p s) as [[result|e] s1]; simpl in Hd.
    - assert (H1 : recording idx (results_of s) (results_of s1)).
      { unfold results_of in *. now rewrite Hd. }
      destruct (loads (response result)) as [j|e]; [|exact H1].
      now apply record_result_recording.
    - unfold results_of in *. simpl. now rewrite Hd. }
  destruct H as (Hc' & Hn' & Ho' & Hl').
  repeat split; auto. congruence.
Qed.

(** Capture 3 evaluated after captures 1 and 2: their rows stay. *)
Lemma evaluate_capture_touches_one_row_witness :
  other_rows (CInt 3)
    (results_of (snd (evaluate_capture 3
       (driver Scenario.after_two, world Scenario.after_two))))
  = rows (df_evaluations (driver Scenario.after_two)).
Proof.
  refine (eq_trans
            (proj1 (evaluate_capture_touches_one_row 3
                      (driver Scenario.after_two, world Scenario.after_two) _)) _).
  - repeat split; vm_compute; repeat constructor.
  - vm_compute. reflexivity.
Defined.

(** ** X3 *)

(** X3. A completion call that raises: the exception reaches the caller
    of [evaluate_capture] as it is, the request has been made and is not
    made again, and nothing else has changed: the driver, its results
    table included, and the clock are as before. *)
Theorem completion_failure_propagates
  (idx : Z) (s : EvalState) (data : string) (e : PyExc) :
  capture_image idx s = Ok data ->
  endpoint (snd s) (requests (snd s))
    (build_request (_model (fst s)) (b64encode data)) = Raise e ->
  evaluate_capture idx s
  = (Raise e,
     (fst s,
      with_request (snd s) (build_request (_model (fst s)) (b64encode data)))).
Proof.
  rewrite evaluate_capture_run, capture_image_eq.
  destruct (loc (_df_captures (fst s)) (CInt idx)) as [rec|e0]; [|discriminate].
  destruct (rbind _ _) as [p|e0]; [|discriminate].
  destruct s as [d w]. cbn [fst snd]. intros Hf He.
  rewrite process_capture_run, Hf. cbv zeta. now rewrite He.
Qed.

Lemma completion_failure_propagates_witness :
  fst (evaluate_capture 1 (Scenario.evaluator, Scenario.world_of Scenario.refuses))
  = Raise (ClientError "RateLimitError" "slow down").
Proof.
  rewrite (completion_failure_propagates 1
             (Scenario.evaluator, Scenario.world_of Scenario.refuses)
             "captures/smile.png" (ClientError "RateLimitError" "slow down"));
    reflexivity.
Defined.

(** ** X4 *)

Lemma find_none_of_existsb {A} (p : A -> bool) l :
  existsb p l = false -> find p l = None.
Proof.
  induction l as [|x l IH]; simpl; auto.
  destruct (p x); simpl; [discriminate|exact IH].
Qed.

(** X4. An index that labels no row of the captures table: the
    evaluation raises [KeyError] on that index, no file is opened, no
    request is made, and the driver and the world are as before. *)
Theorem evaluate_capture_unknown_index (idx : Z) (s : EvalState) :
  has_label (CInt idx) (_df_captures (fst s)) = false ->
  evaluate_capture idx s = (Raise (KeyError (repr_int idx)), s).
Proof.
  intro H. apply evaluate_capture_no_image.
  rewrite capture_image_eq. unfold loc, has_label in *.
  now rewrite (find_none_of_existsb _ _ H).
Qed.

Lemma evaluate_capture_unknown_index_witness :
  evaluate_capture 9 (Fixture.evaluator, Fixture.world_with Fixture.conforming)
  = (Raise (KeyError "9"),
     (Fixture.evaluator, Fixture.world_with Fixture.conforming)).
Proof.
  apply (evaluate_capture_unknown_index 9
           (Fixture.evaluator, Fixture.world_with Fixture.conforming)).
  reflexivity.
Defined.

(** ** X5 *)

(** X5. A failure on the way to the decoded response, be it the row of
    the capture, its path, the image file, the completion call, its
    choices or the decoding: the evaluation raises the exception met,
    the driver, results table included, is as it was, and the clock has
    not been read. *)
Theorem failure_before_decoding (idx : Z) (s : EvalState) (e : PyExc) :
  decoded_response idx s = Raise e ->
  let out := evaluate_capture idx s in
  fst out = Raise e
  /\ fst (snd out) = fst s
  /\ clock_reads (snd (snd out)) = clock_reads (snd s).
Proof.
  cbv zeta. unfold decoded_response.
  rewrite evaluate_capture_run, capture_image_eq.
  destruct (loc (_df_captures (fst s)) (CInt idx)) as [rec|e0]; simpl.
  2:{ intro H; inversion H; subst. repeat split. }
  destruct (rbind (series_getitem rec "path") _) as [p|e0]; simpl.
  2:{ intro H; inversion H; subst. repeat split. }
  destruct s as [d w]. simpl. rewrite process_capture_run.
  destruct (files w p) as [data|e0]; simpl.
  2:{ intro H; inversion H; subst. repeat split. }
  destruct (endpoint w (requests w) _) as [c|e0]; simpl.
  2:{ intro H; inversion H; subst. repeat split. }
  destruct (choices c) as [|first rest]; simpl.
  { intro H; inversion H; subst. repeat split. }
  intro Hl. rewrite Hl. repeat split.
Qed.

(** An answer that is not JSON. *)
Lemma failure_before_decoding_witness :
  fst (evaluate_capture 1 (Fixture.evaluator, Fixture.world_with "happiness"))
  = Raise (JSONDecodeError "happiness").
Proof.
  refine (proj1 (failure_before_decoding 1
                   (Fixture.evaluator, Fixture.world_with "happiness")
                   (JSONDecodeError "happiness") _)).
  reflexivity.
Defined.

(** ** X6 *)

Lemma store_keeps_configuration idx col v :
  keeps (fun s : EvalState => configuration (fst s)) (store idx col v).
Proof. intros [d w]. reflexivity. Qed.

Lemma timestamp_now_keeps_configuration :
  keeps (fun s : EvalState => configuration (fst s)) timestamp_now.
Proof. intros [d w]. reflexivity. Qed.

#[local] Hint Resolve store_keeps_configuration
  timestamp_now_keeps_configuration : keeps.

Lemma record_result_keeps_configuration idx m rec result response :
  keeps (fun s : EvalState => configuration (fst s))
        (record_result idx m rec result response).
Proof. unfold record_result. keeps_steps. Qed.

Lemma evaluate_capture_keeps_configuration idx :
  keeps (fun s : EvalState => configuration (fst s)) (evaluate_capture idx).
Proof.
  intro s. rewrite evaluate_capture_run.
  destruct (loc (_df_captures (fst s)) (CInt idx)) as [rec|e]; [|reflexivity].
  destruct (rbind _ _) as [p|e]; [|reflexivity].
  pose proof (process_capture_keeps_driver p s) as Hd.
  destruct (_process_capture p s) as [[result|e] s1]; simpl in Hd;
    [|cbn [snd]; now rewrite Hd].
  destruct (loads (response result)) as [j|e]; [|cbn [snd]; now rewrite Hd].
  rewrite <- Hd. apply record_result_keeps_configuration.
Qed.

Lemma set_evaluations_keeps_configuration (f : SaveState -> DataFrame) :
  keeps (fun s : SaveState => configuration (fst s))
        (modify (fun s : SaveState => (set_evaluations (f s) (fst s), snd s))).
Proof. intros [d q]. reflexivity. Qed.

Lemma on_storage_keeps_configuration {A} (m : M Sqlite A) :
  keeps (fun s : SaveState => configuration (fst s)) (on_storage m).
Proof.
  intros [d q]. unfold on_storage. cbn [fst snd].
  destruct (m q). reflexivity.
Qed.

Lemma save_to_db_keeps_configuration db t r :
  keeps (fun s : SaveState => configuration (fst s)) (save_to_db db t r).
Proof.
  unfold save_to_db.
  apply keeps_bind; [apply keeps_get|intro s].
  apply keeps_bind; [apply keeps_lift|intro ts].
  apply keeps_bind; [apply keeps_lift|intro ts'].
  apply keeps_bind;
    [apply (set_evaluations_keeps_configuration
              (fun s => setitem (df_evaluations (fst s)) "timestamp" ts'))|intros _].
  apply keeps_bind; [apply keeps_get|intro s1].
  apply keeps_bind; [apply keeps_lift|intro data].
  apply on_storage_keeps_configuration.
Qed.

Lemma step_keeps_configuration op s :
  configuration (driver (step op s)) = configuration (driver s).
Proof.
  destruct op as [idx|db t r|db df t p i|db t c|db]; simpl; try reflexivity.
  - pose proof (evaluate_capture_keeps_configuration idx (driver s, world s)) as K.
    destruct (evaluate_capture idx (driver s, world s)) as [r [d w]]. exact K.
  - pose proof (save_to_db_keeps_configuration db t r (driver s, storage s)) as K.
    destruct (save_to_db db t r (driver s, storage s)) as [r0 [d q]]. exact K.
Qed.

(** X6. What the constructor was given stays: after any sequence of
    operations, failed ones included, the driver has the model name, the
    captures table and the captures root it was constructed with. *)
Theorem driver_configuration_is_constant (ops : list Op) (s : System) :
  configuration (driver (run ops s)) = configuration (driver s).
Proof.
  revert s. induction ops as [|op ops IH]; intro s; simpl; [reflexivity|].
  rewrite IH. apply step_keeps_configuration.
Qed.

(** ** X7 and X8 *)

Lemma retyped_idempotent df : retyped (retyped df) = retyped df.
Proof.
  unfold retyped. cbn [index_name columns rows]. f_equal.
  rewrite map_map. apply map_ext. intros [c d]. cbn [fst].
  destruct (String.eqb "timestamp" c) eqn:E; cbn [fst]; now rewrite ?E.
Qed.

(** X7. [save_to_db] on the results table of a driver, after any sequence
    of operations: the table is retyped in place, and the adapter's
    [save_dataframe] is called once, with the whole retyped table, its
    [test_id] as first column, the table name and policy given (or
    [evaluations] and [append]) and no index flag; the outcome of the
    save is the outcome of that call. *)
Theorem save_to_db_delegates
  (model_name : string) (captures : DataFrame) (root : string)
  (w : World) (q : Sqlite) (ops : list Op)
  (db : DBManager) (t r : option string) :
  let s := run ops (fresh model_name captures root w q) in
  let df := retyped (df_evaluations (driver s)) in
  save_to_db db t r (driver s, storage s)
  = (fst (save_dataframe db (outgoing_frame df) (default "evaluations" t)
            (Some (default "append" r)) None (storage s)),
     (set_evaluations df (driver s),
      snd (save_dataframe db (outgoing_frame df) (default "evaluations" t)
             (Some (default "append" r)) None (storage s)))).
Proof.
  cbv zeta.
  pose proof (run_tracked ops [] (fresh model_name captures root w q)
                (tracked_init _ _ _)) as H.
  set (s := run ops (fresh model_name captures root w q)) in *.
  destruct (getitem_timestamp _ _ H) as (d & Hg).
  unfold save_to_db. unfold bind at 1, get at 1. cbn [fst snd].
  unfold bind at 1, lift at 1. rewrite Hg.
  unfold bind at 1, lift at 1, astype_datetime64. cbn [snd].
  rewrite traverse_temporal.
  2:{ destruct H as (_ & _ & _ & Ht). rewrite Forall_map. exact Ht. }
  cbn [rbind]. unfold bind at 1, modify at 1. cbn [fst snd].
  rewrite (setitem_timestamp _ _ H).
  unfold bind at 1, get at 1. cbn [fst snd df_evaluations set_evaluations].
  unfold bind, lift, on_storage.
  assert (Hr : reset_index (retyped (df_evaluations (driver s)))
               = Ok (outgoing_frame (retyped (df_evaluations (driver s))))).
  { destruct (retyped_tracked _ _ H) as ((Hn & Hc & _) & _).
    unfold reset_index. rewrite Hn, Hc. reflexivity. }
  rewrite Hr. cbn [fst snd].
  destruct (save_dataframe _ _ _ _ _ _) as [r0 w0]. reflexivity.
Qed.

(** X8. Once [save_to_db] has run, running it again, with whatever
    adapter, name and policy, leaves the results table of the driver as
    the first run left it. *)
Theorem save_to_db_settles
  (model_name : string) (captures : DataFrame) (root : string)
  (w : World) (q : Sqlite) (ops : list Op)
  (db1 db2 : DBManager) (t1 t2 r1 r2 : option string) :
  let s := run ops (fresh model_name captures root w q) in
  let once := step (OpSaveToDb db1 t1 r1) s in
  df_evaluations (driver (step (OpSaveToDb db2 t2 r2) once))
  = df_evaluations (driver once).
Proof.
  cbv zeta.
  pose proof (run_tracked (ops ++ [OpSaveToDb db1 t1 r1]) []
                (fresh model_name captures root w q) (tracked_init _ _ _)) as H.
  assert (Hrun : forall a b x, run (a ++ [b]) x = step b (run a x)).
  { induction a as [|o a IH]; intros b x; simpl; auto. }
  rewrite Hrun in H.
  set (s := run ops (fresh model_name captures root w q)) in *.
  pose proof (run_tracked ops [] (fresh model_name captures root w q)
                (tracked_init _ _ _)) as H0. fold s in H0.
  assert (K1 : df_evaluations (driver (step (OpSaveToDb db1 t1 r1) s))
               = retyped (df_evaluations (driver s))).
  { simpl.
    pose proof (save_to_db_driver _ db1 t1 r1 (driver s) (storage s) H0) as K.
    destruct (save_to_db db1 t1 r1 (driver s, storage s)) as [r0 [d q0]].
    simpl in *. now subst d. }
  set (once := step (OpSaveToDb db1 t1 r1) s) in *.
  clearbody once. clearbody s.
  cbn [step].
  pose proof (save_to_db_driver _ db2 t2 r2 (driver once) (storage once) H) as K.
  destruct (save_to_db db2 t2 r2 (driver once, storage once)) as [r0 [d q0]].
  simpl in *. subst d. cbn [df_evaluations set_evaluations].
  rewrite K1. apply retyped_idempotent.
Qed.

(* ===================================================================== *)
(** * Further properties of the adapter                                   *)
(* ===================================================================== *)

Lemma traverse_length {A B} (f : A -> Res B) l ys :
  traverse f l = Ok ys -> List.length ys = List.length l.
Proof.
  revert ys. induction l as [|x l IH]; simpl; intros ys H.
  - inversion H. reflexivity.
  - destruct (f x); simpl in H; [|discriminate].
    destruct (traverse f l); simpl in H; [|discriminate].
    inversion H. simpl. f_equal. now apply IH.
Qed.

Lemma has_table_assoc t d :
  has_table t d = true -> exists T, assoc t d = Some T.
Proof.
  unfold has_table. induction d as [|[n x] d IH]; simpl; [discriminate|].
  destruct (String.eqb t n); simpl; eauto.
Qed.

Lemma assoc_has_table t d T : assoc t d = Some T -> has_table t d = true.
Proof.
  unfold has_table. induction d as [|[n x] d IH]; simpl; [discriminate|].
  destruct (String.eqb t n); simpl; auto.
Qed.

(** The database that a successful [to_sql] leaves, by the three ways it
    can succeed: the table replaced, the table added to, the table made. *)
Lemma to_sql_success df t c pol idx w w' :
  to_sql df t c pol idx w = (Ok tt, w') ->
  let d := database_at w (snd c) in
  let w0 := logged (EvToSql (fst c) t pol idx) w in
  exists frame recs D,
    (if idx then reset_index df else Ok df) = Ok frame
    /\ traverse (fun r => adapt_row (map snd (columns frame)) (snd r)) (rows frame)
       = Ok recs
    /\ w' = written (snd c) D w0
    /\ ((has_table t d = true /\ pol = "replace"
         /\ D = (drop_table t d
                 ++ [(t, {| tcolumns := column_names frame; trows := recs |})])%list)
        \/ (pol = "append"
            /\ exists T, assoc t d = Some T
               /\ D = replace_table t
                        {| tcolumns := tcolumns T;
                           trows := (trows T
                                     ++ map (align (tcolumns T) (column_names frame))
                                            recs)%list |} d)
        \/ (has_table t d = false /\ find_table t d = None
            /\ D = (d ++ [(t, {| tcolumns := column_names frame;
                                 trows := recs |})])%list)).
Proof.
  cbv zeta. unfold to_sql. unfold bind at 1, log, modify. cbn [fst snd].
  destruct (negb (valid_if_exists pol)) eqn:Hv; [discriminate|].
  unfold bind at 1, lift at 1.
  destruct (if idx then reset_index df else Ok df) as [frame|e]; [|discriminate].
  unfold bind at 1, get at 1.
  set (w0 := logged _ w).
  change (database_at w0 (snd c)) with (database_at w (snd c)).
  set (d := database_at w (snd c)).
  destruct (has_table t d) eqn:Hhas.
  - destruct (String.eqb pol "fail") eqn:Hf; [discriminate|].
    destruct (String.eqb pol "replace") eqn:Hr.
    + apply String.eqb_eq in Hr. subst pol.
      unfold bind, lift, write_database, modify.
      destruct (traverse _ (rows frame)) as [recs|e] eqn:Hrecs; [|discriminate].
      intro H. inversion H. exists frame, recs. eexists.
      split; [reflexivity|]. split; [exact Hrecs|]. split; [reflexivity|].
      left. repeat split.
    + assert (Hpol : pol = "append").
      { apply negb_false_iff in Hv. unfold valid_if_exists in Hv.
        rewrite Hf, Hr in Hv. simpl in Hv. now apply String.eqb_eq. }
      destruct (has_table_assoc _ _ Hhas) as (T & HT). rewrite HT.
      destruct (forallb _ _); [|discriminate].
      unfold bind, lift, write_database, modify.
      destruct (traverse _ (rows frame)) as [recs|e] eqn:Hrecs; [|discriminate].
      intro H. inversion H. exists frame, recs. eexists.
      split; [reflexivity|]. split; [exact Hrecs|]. split; [reflexivity|].
      right. left. split; [exact Hpol|]. exists T. split; reflexivity.
  - destruct (find_table t d) eqn:Hfind; [discriminate|].
    destruct (starts_with "sqlite_" (lowercase t)); [discriminate|].
    unfold bind, lift, write_database, modify.
    destruct (traverse _ (rows frame)) as [recs|e] eqn:Hrecs; [|discriminate].
    intro H. inversion H. exists frame, recs. eexists.
    split; [reflexivity|]. split; [exact Hrecs|]. split; [reflexivity|].
    right. right. repeat split.
Qed.

(** A [to_sql] that does not succeed writes nothing. *)
Lemma to_sql_failure df t c pol idx w e w' :
  to_sql df t c pol idx w = (Raise e, w') ->
  w' = logged (EvToSql (fst c) t pol idx) w.
Proof.
  unfold to_sql. unfold bind at 1, log, modify. cbn [fst snd].
  destruct (negb (valid_if_exists pol)); [intro H; now inversion H|].
  unfold bind at 1, lift at 1.
  destruct (if idx then reset_index df else Ok df) as [frame|e0];
    [|intro H; now inversion H].
  unfold bind at 1, get at 1.
  unfold bind, lift, write_database, modify, raise, ret.
  repeat break_match; intro H; inversion H; reflexivity.
Qed.

(** [save_dataframe] in one piece. *)
Lemma save_dataframe_steps self df t pol idx w :
  save_dataframe self df t pol idx w
  = let h := next_handle w in
    let p := _db_path self in
    let w1 := logged (EvConnect h p) w in
    if unopenable w p then
      (Raise (OperationalError "unable to open database file"), w1)
    else
      match to_sql df t (h, p) (default "replace" pol) (default false idx)
                   (opened p w1) with
      | (Ok _, w2) => (Ok tt, logged (EvCommit h) (logged (EvCommit h) w2))
      | (Raise e, w2) => (Raise e, logged (EvRollback h) w2)
      end.
Proof.
  unfold save_dataframe, with_connection.
  unfold bind at 1, connect. cbv zeta.
  destruct (unopenable w (_db_path self)); [reflexivity|].
  unfold connection_exit, bind, commit, log, modify. cbn [fst snd].
  destruct (to_sql _ _ _ _ _ _) as [[[]|e] w2]; reflexivity.
Qed.

(** [list_tables] in one piece. *)
Lemma list_tables_run self w :
  list_tables self w
  = let h := next_handle w in
    let p := _db_path self in
    let w1 := logged (EvConnect h p) w in
    if unopenable w p then
      (Raise (OperationalError "unable to open database file"), w1)
    else
      (Ok (map fst (database_at w p)),
       logged (EvCommit h) (logged (EvExecute h catalogue_sql) (opened p w1))).
Proof.
  unfold list_tables, with_connection.
  unfold bind at 1, connect. cbv zeta.
  destruct (unopenable w (_db_path self)); [reflexivity|].
  unfold connection_exit, execute_catalogue, bind, log, modify, get, ret.
  cbn [fst snd]. f_equal. f_equal.
  change (database_at (logged _ (opened _ (logged _ w))) (_db_path self))
    with (database_at w (_db_path self)).
  rewrite map_map. apply map_ext. intros [n T]. reflexivity.
Qed.

(** ** X9 *)

(** X9. A database file that cannot be opened: each of the three
    operations raises [sqlite3.OperationalError]; nothing is handed to
    pandas or to the engine, no connection is opened, and the content of
    every database file is what it was. *)
Theorem unreachable_database (self : DBManager) (w : Sqlite) :
  unopenable w (_db_path self) = true ->
  let refused :=
    (Raise (OperationalError "unable to open database file"),
     logged (EvConnect (next_handle w) (_db_path self)) w) in
  (forall df t pol idx, save_dataframe self df t pol idx w = refused)
  /\ (forall t col,
         load_dataframe self t col w
         = (Raise (OperationalError "unable to open database file"),
            logged (EvConnect (next_handle w) (_db_path self)) w))
  /\ list_tables self w
     = (Raise (OperationalError "unable to open database file"),
        logged (EvConnect (next_handle w) (_db_path self)) w).
Proof.
  intro H. cbv zeta. repeat split; intros.
  - rewrite save_dataframe_steps. cbv zeta. now rewrite H.
  - rewrite load_dataframe_run. cbv zeta. now rewrite H.
  - rewrite list_tables_run. cbv zeta. now rewrite H.
Qed.

Lemma unreachable_database_witness :
  list_tables Fixture.db Scenario.locked
  = (Raise (OperationalError "unable to open database file"),
     logged (EvConnect 0 "evals.db") Scenario.locked).
Proof.
  destruct (unreachable_database Fixture.db Scenario.locked) as (_ & _ & H).
  - reflexivity.
  - exact H.
Defined.

(** ** X10 *)


(** ** X11 *)

Lemma assoc_assoc_set_other {A} k k' (v : A) l :
  k' <> k -> assoc k' (assoc_set k v l) = assoc k' l.
Proof.
  intro H. induction l as [|[k0 v0] l IH]; simpl.
  - destruct (String.eqb k' k) eqn:E; [|reflexivity].
    apply String.eqb_eq in E. contradiction.
  - destruct (String.eqb k k0) eqn:E; simpl.
    + apply String.eqb_eq in E. subst k0.
      destruct (String.eqb k' k) eqn:E'; [|reflexivity].
      apply String.eqb_eq in E'. contradiction.
    + now rewrite IH.
Qed.

Lemma find_table_app n d d' :
  find_table n (d ++ d')%list
  = match find_table n d with Some T => Some T | None => find_table n d' end.
Proof.
  induction d as [|[m x] d IH]; simpl; auto.
  now destruct (String.eqb (lowercase n) (lowercase m)).
Qed.

Lemma find_table_drop_other n t d :
  lowercase n <> lowercase t ->
  find_table n (drop_table t d) = find_table n d.
Proof.
  intro H. unfold drop_table. induction d as [|[m x] d IH]; simpl; auto.
  destruct (String.eqb t m) eqn:E; simpl.
  - apply String.eqb_eq in E. subst m.
    destruct (String.eqb (lowercase n) (lowercase t)) eqn:E'; [|exact IH].
    apply String.eqb_eq in E'. contradiction.
  - now rewrite IH.
Qed.

Lemma find_table_replace_other n t T d :
  lowercase n <> lowercase t ->
  find_table n (replace_table t T d) = find_table n d.
Proof.
  intro H. induction d as [|[m x] d IH]; simpl; auto.
  destruct (String.eqb t m) eqn:E; simpl.
  - apply String.eqb_eq in E. subst m.
    destruct (String.eqb (lowercase n) (lowercase t)) eqn:E'; [|reflexivity].
    apply String.eqb_eq in E'. contradiction.
  - now rewrite IH.
Qed.

Lemma find_table_single_other n t T :
  lowercase n <> lowercase t -> find_table n [(t, T)] = None.
Proof.
  intro H. simpl.
  destruct (String.eqb (lowercase n) (lowercase t)) eqn:E; [|reflexivity].
  apply String.eqb_eq in E. contradiction.
Qed.

Lemma database_at_logged e w p : database_at (logged e w) p = database_at w p.
Proof. reflexivity. Qed.

(** X11. [save_dataframe] writes to one table of one file: whatever the
    frame, the policy and the outcome, the databases at the other paths
    are afterwards what they were, and so is, in the file of the
    adapter, every table whose name differs from the one given even when
    case is ignored. *)
Theorem save_touches_one_table
  (self : DBManager) (df : DataFrame) (t : string)
  (pol : option string) (idx : option bool) (w : Sqlite) :
  let w' := snd (save_dataframe self df t pol idx w) in
  (forall p, p <> _db_path self -> database_at w' p = database_at w p)
  /\ (forall n, lowercase n <> lowercase t ->
        find_table n (database_at w' (_db_path self))
        = find_table n (database_at w (_db_path self))).
Proof.
  cbv zeta. rewrite save_dataframe_steps. cbv zeta.
  destruct (unopenable w (_db_path self)); [split; reflexivity|].
  destruct (to_sql _ _ _ _ _ _) as [[[]|e] w2] eqn:Hts.
  - apply to_sql_success in Hts. cbv zeta in Hts.
    destruct Hts as (frame & recs & D & _ & _ & -> & Hcase).
    cbn [fst snd] in *.
    change (database_at (opened (_db_path self) (logged _ w)) (_db_path self))
      with (database_at w (_db_path self)) in Hcase.
    split.
    + intros p Hp. unfold database_at. cbn [db_files logged written opened snd].
      now rewrite assoc_assoc_set_other.
    + intros n Hn.
      rewrite !database_at_logged, database_at_written.
      destruct Hcase as [(_ & _ & ->)|[(_ & T & _ & ->)|(_ & _ & ->)]].
      * rewrite find_table_app, find_table_drop_other by exact Hn.
        rewrite find_table_single_other by exact Hn.
        now destruct (find_table n _).
      * now apply find_table_replace_other.
      * rewrite find_table_app, find_table_single_other by exact Hn.
        now destruct (find_table n _).
  - apply to_sql_failure in Hts. subst w2. split; reflexivity.
Qed.

Lemma save_touches_one_table_witness :
  database_at
    (snd (save_dataframe Scenario.other_db Fixture.results_frame "evaluations"
            None None (snd Fixture.saved_once)))
    "evals.db"
  = database_at (snd Fixture.saved_once) "evals.db".
Proof.
  destruct (save_touches_one_table Scenario.other_db Fixture.results_frame
              "evaluations" None None (snd Fixture.saved_once)) as (H & _).
  apply H. discriminate.
Defined.

(** ** X12 *)

Lemma save_invalid_policy self df t pol idx w :
  unopenable w (_db_path self) = false ->
  valid_if_exists pol = false ->
  save_dataframe self df t (Some pol) idx w
  = (Raise (ValueError ("'" ++ pol ++ "' is not valid for if_exists")),
     logged (EvRollback (next_handle w))
       (logged (EvToSql (next_handle w) t pol (default false idx))
          (opened (_db_path self)
             (logged (EvConnect (next_handle w) (_db_path self)) w)))).
Proof.
  intros Ho Hv. rewrite save_dataframe_steps. cbv zeta. rewrite Ho.
  unfold to_sql. unfold bind at 1, log, modify. cbn [fst snd default].
  rewrite Hv. reflexivity.
Qed.

Lemma save_fail_on_existing self df t w :
  unopenable w (_db_path self) = false ->
  has_table t (database_at w (_db_path self)) = true ->
  save_dataframe self df t (Some "fail") None w
  = (Raise (ValueError ("Table '" ++ t ++ "' already exists.")),
     logged (EvRollback (next_handle w))
       (logged (EvToSql (next_handle w) t "fail" false)
          (opened (_db_path self)
             (logged (EvConnect (next_handle w) (_db_path self)) w)))).
Proof.
  intros Ho Hh. rewrite save_dataframe_steps. cbv zeta. rewrite Ho.
  unfold to_sql. unfold bind at 1, log, modify. cbn [fst snd default].
  change (negb (valid_if_exists "fail")) with false. cbv iota.
  unfold bind at 1, lift at 1. unfold bind at 1, get at 1.
  rewrite !database_at_logged.
  change (database_at (opened (_db_path self) (logged _ w)) (_db_path self))
    with (database_at w (_db_path self)).
  rewrite Hh. reflexivity.
Qed.

(** X12. Policies that refuse. On a database file that can be opened, a
    policy that is none of [fail], [replace] and [append] makes
    [save_dataframe] raise [ValueError] naming it, and the policy [fail]
    makes it raise [ValueError] when a table of the name exists; in both
    cases the content of every database file is what it was. *)
Theorem refused_policies
  (self : DBManager) (df : DataFrame) (t : string) (w : Sqlite) :
  unopenable w (_db_path self) = false ->
  (forall pol idx,
      valid_if_exists pol = false ->
      fst (save_dataframe self df t (Some pol) idx w)
      = Raise (ValueError ("'" ++ pol ++ "' is not valid for if_exists"))
      /\ db_files (snd (save_dataframe self df t (Some pol) idx w)) = db_files w)
  /\ (has_table t (database_at w (_db_path self)) = true ->
      fst (save_dataframe self df t (Some "fail") None w)
      = Raise (ValueError ("Table '" ++ t ++ "' already exists."))
      /\ db_files (snd (save_dataframe self df t (Some "fail") None w))
         = db_files w).
Proof.
  intro Ho. split.
  - intros pol idx Hv. rewrite (save_invalid_policy _ _ _ _ _ _ Ho Hv).
    split; reflexivity.
  - intro Hh. rewrite (save_fail_on_existing _ _ _ _ Ho Hh).
    split; reflexivity.
Qed.

Lemma refused_policies_witness :
  fst (save_dataframe Fixture.db Fixture.results_frame "evaluations"
         (Some "fail") None (snd Fixture.saved_once))
  = Raise (ValueError "Table 'evaluations' already exists.").
Proof.
  destruct (refused_policies Fixture.db Fixture.results_frame "evaluations"
              (snd Fixture.saved_once)) as (_ & H).
  - reflexivity.
  - apply H. reflexivity.
Defined.

(** ** X13 *)

Lemma database_at_opened p' w p : database_at (opened p' w) p = database_at w p.
Proof. reflexivity. Qed.

Lemma to_sql_replace_existing df t c w recs :
  has_table t (database_at w (snd c)) = true ->
  traverse (fun r => adapt_row (map snd (columns df)) (snd r)) (rows df) = Ok recs ->
  to_sql df t c "replace" false w
  = (Ok tt,
     written (snd c)
       (drop_table t (database_at w (snd c))
        ++ [(t, {| tcolumns := column_names df; trows := recs |})])%list
       (logged (EvToSql (fst c) t "replace" false) w)).
Proof.
  intros Hh Hr. unfold to_sql. unfold bind at 1, log, modify. cbn [fst snd].
  change (negb (valid_if_exists "replace")) with false. cbv iota.
  unfold bind at 1, lift at 1. unfold bind at 1, get at 1.
  rewrite database_at_logged, Hh.
  change (String.eqb "replace" "fail") with false.
  change (String.eqb "replace" "replace") with true. cbv iota.
  unfold bind, lift, write_database, modify. now rewrite Hr.
Qed.

Lemma has_table_snoc t T d : has_table t (d ++ [(t, T)])%list = true.
Proof.
  unfold has_table. rewrite existsb_app. cbn [existsb fst].
  rewrite String.eqb_refl. now rewrite orb_true_r.
Qed.

Lemma drop_table_absent t d : has_table t d = false -> drop_table t d = d.
Proof.
  unfold has_table, drop_table. induction d as [|[n x] d IH]; simpl; auto.
  destruct (String.eqb t n); simpl; [discriminate|]. intro H. now rewrite IH.
Qed.

Lemma has_table_dropped t d : has_table t (drop_table t d) = false.
Proof.
  unfold has_table, drop_table. induction d as [|[n x] d IH]; simpl; auto.
  destruct (String.eqb t n) eqn:E; simpl; [exact IH|]. now rewrite E.
Qed.

Lemma drop_table_snoc t T d :
  drop_table t (d ++ [(t, T)])%list = drop_table t d.
Proof.
  unfold drop_table. rewrite filter_app. cbn [filter fst].
  rewrite String.eqb_refl. cbn [negb]. apply app_nil_r.
Qed.

(** X13. Saving with the default policy is idempotent: when
    [save_dataframe], called without a policy and without the index
    flag, has succeeded, the same call made again succeeds and leaves
    the database of the adapter as the first call left it. *)
Theorem default_save_is_idempotent
  (self : DBManager) (df : DataFrame) (t : string) (w w1 : Sqlite) :
  save_dataframe self df t None None w = (Ok tt, w1) ->
  exists w2,
    save_dataframe self df t None None w1 = (Ok tt, w2)
    /\ database_at w2 (_db_path self) = database_at w1 (_db_path self).
Proof.
  rewrite save_dataframe_steps. cbv zeta.
  destruct (unopenable w (_db_path self)) eqn:Ho; [discriminate|].
  cbn [default].
  destruct (to_sql _ _ _ _ _ _) as [[[]|e] w2] eqn:Hts; [|discriminate].
  intro H. inversion H; subst w1. clear H.
  apply to_sql_success in Hts. cbv zeta in Hts.
  destruct Hts as (frame & recs & D & Hfr & Hrecs & -> & Hcase).
  inversion Hfr; subst frame. clear Hfr. cbn [fst snd] in *.
  rewrite database_at_opened, database_at_logged in Hcase.
  set (d := database_at w (_db_path self)) in *.
  assert (HD : has_table t D = true
               /\ (drop_table t D
                   ++ [(t, {| tcolumns := column_names df; trows := recs |})])%list
                  = D).
  { destruct Hcase as [(_ & _ & ->)|[(Hp & _)|(Hh & _ & ->)]];
      [|discriminate|].
    - split; [apply has_table_snoc|].
      rewrite drop_table_snoc. f_equal.
      apply drop_table_absent, has_table_dropped.
    - split; [apply has_table_snoc|].
      rewrite drop_table_snoc. f_equal. now apply drop_table_absent. }
  destruct HD as (HhD & HdD).
  rewrite save_dataframe_steps. cbv zeta. cbn [unopenable logged written opened].
  rewrite Ho. cbn [default].
  match goal with
  | |- context [to_sql df t ?c "replace" false ?W] =>
      assert (HW : database_at W (snd c) = D)
        by (cbn [snd];
            rewrite database_at_opened, !database_at_logged;
            apply database_at_written);
      rewrite (to_sql_replace_existing df t c W recs)
        by (rewrite ?HW; assumption);
      rewrite HW
  end.
  eexists. split; [reflexivity|].
  rewrite !database_at_logged, !database_at_written. exact HdD.
Qed.

Lemma default_save_is_idempotent_witness :
  exists w2,
    save_dataframe Fixture.db Fixture.results_frame "evaluations" None None
      (snd (save_dataframe Fixture.db Fixture.results_frame "evaluations"
              None None (snd Fixture.saved_once)))
    = (Ok tt, w2)
    /\ database_at w2 "evals.db"
       = database_at
           (snd (save_dataframe Fixture.db Fixture.results_frame "evaluations"
                   None None (snd Fixture.saved_once)))
           "evals.db".
Proof.
  apply (default_save_is_idempotent Fixture.db Fixture.results_frame
           "evaluations" (snd Fixture.saved_once)).
  vm_compute. reflexivity.
Defined.

(** ** X14 *)

Lemma catalogue_ok_cons n T d :
  catalogue_ok ((n, T) :: d) = true ->
  find_table n d = None /\ catalogue_ok d = true.
Proof.
  simpl. destruct (find_table n d); [discriminate|]. auto.
Qed.

(** In a sound catalogue, the table found for a name is the one that has
    exactly that name, when there is one. *)
Lemma find_table_exact t d T :
  catalogue_ok d = true -> assoc t d = Some T -> find_table t d = Some T.
Proof.
  induction d as [|[n x] d IH]; [discriminate|].
  intros Hc Ha. apply catalogue_ok_cons in Hc. destruct Hc as (Hn & Hc).
  simpl in *. destruct (String.eqb t n) eqn:E.
  - apply String.eqb_eq in E. subst n. now rewrite String.eqb_refl.
  - destruct (String.eqb (lowercase t) (lowercase n)) eqn:El; [|now apply IH].
    apply String.eqb_eq in El. exfalso.
    apply (has_table_find_table t n d); auto.
    now apply assoc_has_table with (T := T).
Qed.

Lemma find_table_replaced t d T0 T :
  catalogue_ok d = true -> assoc t d = Some T0 ->
  find_table t (replace_table t T d) = Some T.
Proof.
  induction d as [|[n x] d IH]; [discriminate|].
  intros Hc Ha. apply catalogue_ok_cons in Hc. destruct Hc as (Hn & Hc).
  simpl in *. destruct (String.eqb t n) eqn:E; simpl.
  - apply String.eqb_eq in E. subst n. now rewrite String.eqb_refl.
  - destruct (String.eqb (lowercase t) (lowercase n)) eqn:El; [|now apply IH].
    apply String.eqb_eq in El. exfalso.
    apply (has_table_find_table t n d); auto.
    now apply assoc_has_table with (T := T0).
Qed.

(** X14. Appending accumulates: when [save_dataframe] with the policy
    [append] succeeds on a database whose catalogue is sound, the table
    of that name holds afterwards as many rows as it held before (none
    when it did not exist) plus one for every row of the frame. *)
Theorem append_adds_the_rows
  (self : DBManager) (df : DataFrame) (t : string) (w w' : Sqlite) :
  catalogue_ok (database_at w (_db_path self)) = true ->
  save_dataframe self df t (Some "append") None w = (Ok tt, w') ->
  List.length (stored_rows w' self t)
  = (List.length (stored_rows w self t) + List.length (rows df))%nat.
Proof.
  intro Hc. rewrite save_dataframe_steps. cbv zeta.
  destruct (unopenable w (_db_path self)) eqn:Ho; [discriminate|].
  cbn [default].
  destruct (to_sql _ _ _ _ _ _) as [[[]|e] w2] eqn:Hts; [|discriminate].
  intro H. inversion H; subst w'. clear H.
  apply to_sql_success in Hts. cbv zeta in Hts.
  destruct Hts as (frame & recs & D & Hfr & Hrecs & -> & Hcase).
  inversion Hfr; subst frame. clear Hfr. cbn [fst snd] in *.
  rewrite database_at_opened, database_at_logged in Hcase.
  unfold stored_rows.
  rewrite !database_at_logged, database_at_written.
  set (d := database_at w (_db_path self)) in *.
  pose proof (traverse_length _ _ _ Hrecs) as Hlen.
  destruct Hcase as [(_ & Hp & _)|[(_ & T & HT & ->)|(_ & Hf & ->)]];
    [discriminate| |].
  - rewrite (find_table_replaced _ _ _ _ Hc HT), (find_table_exact _ _ _ Hc HT).
    cbn [trows]. rewrite length_app, length_map. lia.
  - rewrite find_table_app, Hf, find_table_self. simpl. exact Hlen.
Qed.

Lemma append_adds_the_rows_witness :
  List.length
    (stored_rows
       (snd (save_dataframe Fixture.db Fixture.results_frame "evaluations"
               (Some "append") None (snd Fixture.saved_once)))
       Fixture.db "evaluations")
  = (List.length (stored_rows (snd Fixture.saved_once) Fixture.db "evaluations")
     + List.length (rows Fixture.results_frame))%nat.
Proof.
  apply (append_adds_the_rows Fixture.db Fixture.results_frame "evaluations"
           (snd Fixture.saved_once)).
  - reflexivity.
  - vm_compute. reflexivity.
Defined.

(** ** X15 *)

Lemma occurrences_app t a b :
  occurrences t (a ++ b) = (occurrences t a + occurrences t b)%nat.
Proof. unfold occurrences. now rewrite filter_app, length_app. Qed.

Lemma occurrences_absent t d :
  has_table t d = false -> occurrences t (map fst d) = 0%nat.
Proof.
  unfold has_table, occurrences. induction d as [|[n x] d IH]; simpl; auto.
  destruct (String.eqb t n); simpl; [discriminate|exact IH].
Qed.

Lemma find_table_none_has_table t d : find_table t d = None -> has_table t d = false.
Proof.
  intro H. destruct (has_table t d) eqn:E; [|reflexivity].
  exfalso. exact (has_table_find_table t t d E eq_refl H).
Qed.

Lemma occurrences_once t d :
  catalogue_ok d = true -> has_table t d = true ->
  occurrences t (map fst d) = 1%nat.
Proof.
  induction d as [|[n x] d IH]; [discriminate|].
  intros Hc Hh. apply catalogue_ok_cons in Hc. destruct Hc as (Hn & Hc).
  unfold has_table, occurrences in *. simpl in *.
  destruct (String.eqb t n) eqn:E; simpl.
  - apply String.eqb_eq in E. subst n. f_equal.
    apply (occurrences_absent t d). now apply find_table_none_has_table.
  - now apply IH.
Qed.

Lemma names_replace_table t T d : map fst (replace_table t T d) = map fst d.
Proof.
  induction d as [|[n x] d IH]; simpl; auto.
  destruct (String.eqb t n) eqn:E; simpl; [|now rewrite IH].
  apply String.eqb_eq in E. now subst n.
Qed.

Lemma occurrences_self t : occurrences t [t] = 1%nat.
Proof. unfold occurrences. simpl. now rewrite String.eqb_refl. Qed.

(** X15. A table that has been saved is listed, once: after a successful
    [save_dataframe], whatever the policy and the index flag, on a
    database whose catalogue was sound, [list_tables] succeeds and the
    name of the table occurs exactly once among the names it returns. *)
Theorem saved_table_is_listed_once
  (self : DBManager) (df : DataFrame) (t : string)
  (pol : option string) (idx : option bool) (w w' : Sqlite) :
  catalogue_ok (database_at w (_db_path self)) = true ->
  save_dataframe self df t pol idx w = (Ok tt, w') ->
  exists names,
    fst (list_tables self w') = Ok names /\ occurrences t names = 1%nat.
Proof.
  intro Hc. rewrite save_dataframe_steps. cbv zeta.
  destruct (unopenable w (_db_path self)) eqn:Ho; [discriminate|].
  destruct (to_sql _ _ _ _ _ _) as [[[]|e] w2] eqn:Hts; [|discriminate].
  intro H. inversion H; subst w'. clear H.
  apply to_sql_success in Hts. cbv zeta in Hts.
  destruct Hts as (frame & recs & D & _ & _ & -> & Hcase).
  cbn [fst snd] in *.
  rewrite database_at_opened, database_at_logged in Hcase.
  rewrite list_tables_run. cbv zeta. cbn [unopenable logged written opened].
  rewrite Ho. eexists. split; [reflexivity|].
  rewrite !database_at_logged, database_at_written.
  set (d := database_at w (_db_path self)) in *.
  destruct Hcase as [(_ & _ & ->)|[(_ & T & HT & ->)|(Hh & _ & ->)]].
  - rewrite map_app, occurrences_app.
    rewrite (occurrences_absent t (drop_table t d) (has_table_dropped t d)).
    apply occurrences_self.
  - rewrite names_replace_table. apply occurrences_once; [exact Hc|].
    now apply assoc_has_table with (T := T).
  - rewrite map_app, occurrences_app, (occurrences_absent t d Hh).
    apply occurrences_self.
Qed.

Lemma saved_table_is_listed_once_witness :
  exists names,
    fst (list_tables Fixture.db (snd Fixture.saved_once)) = Ok names
    /\ occurrences "evaluations" names = 1%nat.
Proof.
  apply (saved_table_is_listed_once Fixture.db
           (outgoing_frame (df_evaluations (fst Fixture.saved_once)))
           "evaluations" (Some "append") None Fixture.empty_storage).
  - reflexivity.
  - vm_compute. reflexivity.
Defined.

(** ** X16 and X17 *)

Lemma query_plain w p t :
  plain_table_name t = true ->
  query w p ("SELECT * FROM " ++ t)
  = match find_table t (database_at w p) with
    | Some T => Ok (frame_of_table T)
    | None =>
        Raise (DatabaseError
                 ("Execution failed on sql '" ++ ("SELECT * FROM " ++ t)
                  ++ "': " ++ ("no such table: " ++ t)))
    end.
Proof.
  intro H. unfold query. now rewrite full_scan_of_select, H.
Qed.

Lemma names_frame_of_table T : column_names (frame_of_table T) = tcolumns T.
Proof.
  unfold column_names, frame_of_table. cbn [columns].
  rewrite map_map. apply map_id.
Qed.

(** X16. Loading what is not there. On a database file that can be
    opened and for a plain table name: when no table answers to the
    name, [load_dataframe] raises pandas' [DatabaseError] with the
    engine's [no such table]; when the table is there and has no column
    of the name given for the index ([id] when none is given), it raises
    [KeyError]. *)
Theorem load_dataframe_missing
  (self : DBManager) (t : string) (col : option string) (w : Sqlite) :
  unopenable w (_db_path self) = false ->
  plain_table_name t = true ->
  (find_table t (database_at w (_db_path self)) = None ->
   fst (load_dataframe self t col w)
   = Raise (DatabaseError
              ("Execution failed on sql 'SELECT * FROM " ++ t
               ++ "': no such table: " ++ t)))
  /\ (forall T,
         find_table t (database_at w (_db_path self)) = Some T ->
         position (default "id" col) (tcolumns T) = None ->
         fst (load_dataframe self t col w)
         = Raise (KeyError ("None of ['" ++ default "id" col
                            ++ "'] are in the columns"))).
Proof.
  intros Ho Hp. split.
  - intro Hf. rewrite load_dataframe_run. cbv zeta. rewrite Ho.
    rewrite (query_plain _ _ _ Hp).
    rewrite database_at_logged, database_at_opened, database_at_logged, Hf.
    reflexivity.
  - intros T Hf Hc. rewrite load_dataframe_run. cbv zeta. rewrite Ho.
    rewrite (query_plain _ _ _ Hp).
    rewrite database_at_logged, database_at_opened, database_at_logged, Hf.
    cbn [rbind]. unfold set_index. rewrite names_frame_of_table, Hc.
    reflexivity.
Qed.

Lemma load_dataframe_missing_witness :
  fst (load_dataframe Fixture.db "evaluations" None (snd Fixture.saved_once))
  = Raise (KeyError "None of ['id'] are in the columns").
Proof.
  destruct (load_dataframe_missing Fixture.db "evaluations" None
              (snd Fixture.saved_once)) as (_ & H).
  - reflexivity.
  - reflexivity.
  - apply (H Scenario.stored_once); vm_compute; reflexivity.
Defined.

Lemma map_combine_range_rows (f : list Cell -> Cell * list Cell) l a :
  map (fun r : Cell * list Cell => f (snd r))
      (combine (range_from a (List.length l)) l)
  = map f l.
Proof.
  revert a. induction l as [|x l IH]; intro a; simpl; auto.
  now rewrite IH.
Qed.

Lemma names_remove_nth (cs : list string) n :
  map fst (remove_nth n (map (fun c => (c, Dobject)) cs)) = remove_nth n cs.
Proof.
  revert n. induction cs as [|c cs IH]; intros [|n]; simpl; auto.
  - rewrite map_map. apply map_id.
  - now rewrite IH.
Qed.

(** X17. Loading what is there. On a database file that can be opened,
    for a plain table name that a table answers to and an index column
    that the table has: [load_dataframe] returns a table whose index has
    the name of that column, whose columns are the other columns of the
    stored table in their order, and which has one row for each stored
    row, in order, labelled with the value stored in the index column
    and holding the values stored in the others. *)
Theorem load_dataframe_promotes_column
  (self : DBManager) (t col : string) (w : Sqlite) (T : SqlTable) (n : nat) :
  unopenable w (_db_path self) = false ->
  plain_table_name t = true ->
  find_table t (database_at w (_db_path self)) = Some T ->
  position col (tcolumns T) = Some n ->
  exists df,
    fst (load_dataframe self t (Some col) w) = Ok df
    /\ index_name df = Some col
    /\ column_names df = remove_nth n (tcolumns T)
    /\ rows df
       = map (fun r => (nth n (map cell_of_sql r) NA,
                        remove_nth n (map cell_of_sql r))) (trows T).
Proof.
  intros Ho Hp Hf Hc. rewrite load_dataframe_run. cbv zeta. rewrite Ho.
  rewrite (query_plain _ _ _ Hp).
  rewrite database_at_logged, database_at_opened, database_at_logged, Hf.
  cbn [rbind default]. unfold set_index. rewrite names_frame_of_table, Hc.
  eexists. split; [reflexivity|]. cbn [index_name columns rows].
  split; [reflexivity|]. split.
  - unfold column_names, frame_of_table. cbn [columns].
    apply names_remove_nth.
  - unfold frame_of_table. cbn [rows].
    rewrite <- (length_map (map cell_of_sql) (trows T)).
    rewrite (map_combine_range_rows
               (fun cells => (nth n cells NA, remove_nth n cells))).
    now rewrite map_map.
Qed.

Lemma load_dataframe_promotes_column_witness :
  exists df,
    fst (load_dataframe Fixture.db "evaluations" (Some "evaluator")
           (snd Fixture.saved_once)) = Ok df
    /\ index_name df = Some "evaluator"
    /\ column_names df
       = ["test_id"; "expected_emotion"; "identified_emotion";
          "key_visual_cues"; "tokens_used"; "timestamp"]
    /\ labels df = [CStr "gpt-4o"].
Proof.
  destruct (load_dataframe_promotes_column Fixture.db "evaluations" "evaluator"
              (snd Fixture.saved_once) Scenario.stored_once 5)
    as (df & H1 & H2 & H3 & H4); try (vm_compute; reflexivity).
  exists df. repeat split; auto.
  unfold labels. now rewrite H4.
Defined.

(** ** X18 *)

(** X18. The results that [save_to_db] stores have no [id] column: after
    a successful save of the results table of a driver (any sequence of
    operations before it) under a plain table name, with the [replace]
    policy or into a database that had no table of that name,
    [load_dataframe] called without an index column raises [KeyError];
    the column to name is [test_id]. *)
Theorem saved_results_have_no_id
  (model_name : string) (captures : DataFrame) (root : string)
  (w : World) (q : Sqlite) (ops : list Op)
  (db : DBManager) (t : string) (rule : option string)
  (ev' : LLMCapturesEvaluator) (q' : Sqlite) :
  let s := run ops (fresh model_name captures root w q) in
  plain_table_name t = true ->
  catalogue_ok (database_at (storage s) (_db_path db)) = true ->
  (rule = Some "replace"
   \/ find_table t (database_at (storage s) (_db_path db)) = None) ->
  save_to_db db (Some t) rule (driver s, storage s) = (Ok tt, (ev', q')) ->
  fst (load_dataframe db t None q')
  = Raise (KeyError "None of ['id'] are in the columns").
Proof.
  cbv zeta. intros Hplain Hcat Hcase Hsave.
  pose proof (run_tracked ops [] (fresh model_name captures root w q)
                (tracked_init _ _ _)) as H.
  set (s := run ops (fresh model_name captures root w q)) in *.
  destruct H as (Hs & _).
  destruct (save_to_db_ok _ _ _ _ _ _ _ Hs Hsave) as ((Hn & Hc & Hl) & Hrun).
  rewrite save_dataframe_run in Hrun. cbv zeta in Hrun.
  destruct (unopenable (storage s) (_db_path db)) eqn:Hopen; [discriminate|].
  destruct (to_sql _ _ _ _ _ _) as [[[]|e] w2] eqn:Hts; [|discriminate].
  inversion Hrun; subst q'. clear Hrun.
  apply to_sql_fresh_table in Hts; [|exact Hcat|].
  2:{ destruct Hcase as [->|Hf]; [now left|right; exact Hf]. }
  destruct Hts as (recs & _ & Hfind & Hun).
  cbn [snd] in Hfind.
  rewrite load_dataframe_run. cbv zeta. cbn [unopenable logged].
  rewrite Hun. cbn [unopenable logged opened]. rewrite Hopen.
  rewrite (query_plain _ _ _ Hplain).
  rewrite database_at_logged, database_at_opened, !database_at_logged, Hfind.
  cbn [rbind default]. unfold set_index. rewrite names_frame_of_table.
  cbn [tcolumns]. unfold column_names. cbn [columns map fst].
  fold (column_names (df_evaluations ev')). rewrite Hc. reflexivity.
Qed.

Lemma saved_results_have_no_id_witness :
  fst (load_dataframe Fixture.db "evaluations" None
         (storage Scenario.after_save))
  = Raise (KeyError "None of ['id'] are in the columns").
Proof.
  refine (saved_results_have_no_id "gpt-4o" Scenario.captures "captures"
            (Scenario.world_of (Fixture.answers Fixture.conforming))
            Fixture.empty_storage [OpEvaluate 1; OpEvaluate 2]
            Fixture.db "evaluations" None
            (driver Scenario.after_save) (storage Scenario.after_save) _ _ _ _).
  - reflexivity.
  - reflexivity.
  - right. reflexivity.
  - vm_compute. reflexivity.
Defined.

(** ** X19 *)

(** X19. The index put into a column and taken out again. For a frame
    whose index has a name that none of its columns has, [reset_index]
    followed by [set_index] on that name gives the frame back: this is
    the path of the row identifiers from [save_to_db] to
    [load_dataframe]. *)
Theorem reset_then_set_index (df : DataFrame) (name : string) :
  index_name df = Some name ->
  position name (column_names df) = None ->
  rbind (reset_index df) (fun d => set_index d name) = Ok df.
Proof.
  intros Hn Hp. unfold reset_index. rewrite Hn, Hp. cbn [rbind].
  unfold set_index, column_names. cbn [columns map fst position].
  rewrite String.eqb_refl. cbn [remove_nth rows index_name columns].
  destruct df as [iname cols rs]. cbn [index_name columns rows] in *.
  subst iname. f_equal. f_equal.
  rewrite <- (length_map (fun r : Cell * list Cell => fst r :: snd r) rs).
  rewrite (map_combine_range_rows
             (fun cells => (nth 0 cells NA, remove_nth 0 cells))).
  rewrite map_map. cbn [nth remove_nth].
  rewrite <- (map_id rs) at 2. apply map_ext. now intros [l cells].
Qed.

Lemma reset_then_set_index_witness :
  rbind (reset_index (df_evaluations Fixture.evaluated_once))
        (fun d => set_index d "test_id")
  = Ok (df_evaluations Fixture.evaluated_once).
Proof.
  apply (reset_then_set_index (df_evaluations Fixture.evaluated_once) "test_id");
    reflexivity.
Defined.

(* ===================================================================== *)
(** * Further properties of the request                                   *)
(* ===================================================================== *)

(** ** X20 *)

(** X20. What goes to the endpoint besides the prompt and the image:
    every request that an evaluation sends names the model of the
    driver, sets the temperature to 1, holds one message, of role [user],
    made of one text part followed by one image part, and asks for a
    [json_schema] response named [emotion_response] whose schema is the
    module's [_output_schema], which requires [emotion] and
    [key_visual_cues]. *)
Theorem request_is_fixed (idx : Z) (s : EvalState) :
  Forall (fun r =>
            model r = _model (fst s)
            /\ temperature r = 1
            /\ map role (messages r) = ["user"]
            /\ map (fun m => List.length (content m)) (messages r) = [2%nat]
            /\ List.length (text_parts r) = 1%nat
            /\ List.length (image_urls r) = 1%nat
            /\ response_format r
               = JObj [("type", JStr "json_schema");
                       ("json_schema",
                        JObj [("name", JStr "emotion_response");
                              ("schema", _output_schema)])]
            /\ json_getitem _output_schema "required"
               = Ok (JArr [JStr "emotion"; JStr "key_visual_cues"]))
         (sent idx s).
Proof.
  rewrite sent_eq. destruct (capture_image idx s); constructor; [|constructor].
  repeat split.
Qed.

(** ** X21 *)

Lemma length_string_of_list_ascii l :
  String.length (string_of_list_ascii l) = List.length l.
Proof. induction l; simpl; auto. Qed.

Lemma length_list_ascii_of_string x :
  List.length (list_ascii_of_string x) = String.length x.
Proof. induction x; simpl; auto. Qed.

Lemma b64_groups_length_bounded n : forall bs,
  (List.length bs <= n)%nat ->
  List.length (b64_groups bs) = (4 * ((List.length bs + 2) / 3))%nat.
Proof.
  induction n as [n IH] using lt_wf_ind.
  intros [|a [|b [|c r]]] Hlen; try reflexivity.
  cbn [b64_groups List.length].
  rewrite (IH (List.length r)); [|simpl in Hlen; lia|lia].
  replace (S (S (S (List.length r))) + 2)%nat
    with ((List.length r + 2) + 1 * 3)%nat by lia.
  rewrite Nat.div_add by lia. lia.
Qed.

Lemma b64_digit_in_alphabet n : In (b64_digit n) b64_alphabet.
Proof.
  unfold b64_digit. apply nth_In.
  assert (0 <= n mod 64 < 64) by (apply Z.mod_pos_bound; lia).
  change (List.length b64_alphabet) with 64%nat. lia.
Qed.

Lemma b64_groups_alphabet_bounded n : forall bs,
  (List.length bs <= n)%nat ->
  Forall (fun c => In c b64_alphabet \/ c = "="%char) (b64_groups bs).
Proof.
  induction n as [n IH] using lt_wf_ind.
  intros [|a [|b [|c r]]] Hlen; cbn [b64_groups].
  - apply Forall_nil.
  - repeat (apply Forall_cons; [left; apply b64_digit_in_alphabet|]).
    repeat (apply Forall_cons; [right; reflexivity|]). apply Forall_nil.
  - repeat (apply Forall_cons; [left; apply b64_digit_in_alphabet|]).
    repeat (apply Forall_cons; [right; reflexivity|]). apply Forall_nil.
  - repeat (apply Forall_cons; [left; apply b64_digit_in_alphabet|]).
    apply (IH (List.length r)); simpl in Hlen; lia.
Qed.

(** X21. [_encode_image] on a file that can be read returns the base64
    text of its bytes and changes nothing: for n bytes, 4 characters for
    every 3 bytes or part thereof, each a letter, a digit, [+], [/] or
    the padding [=]; on a file that cannot be read it raises what
    [open] raised. *)
Theorem encode_image_text (p : string) (s : EvalState) :
  match files (snd s) p with
  | Ok data =>
      _encode_image p s = (Ok (b64encode data), s)
      /\ String.length (b64encode data)
         = (4 * ((String.length data + 2) / 3))%nat
      /\ Forall (fun c => In c b64_alphabet \/ c = "="%char)
                (list_ascii_of_string (b64encode data))
  | Raise e => _encode_image p s = (Raise e, s)
  end.
Proof.
  unfold _encode_image, read_file, bind, ret.
  destruct (files (snd s) p) as [data|e]; [|reflexivity].
  split; [reflexivity|]. unfold b64encode. split.
  - rewrite length_string_of_list_ascii.
    rewrite (b64_groups_length_bounded _ _ (le_n _)).
    now rewrite length_list_ascii_of_string.
  - rewrite list_ascii_of_string_of_list_ascii.
    apply (b64_groups_alphabet_bounded _ _ (le_n _)).
Qed.
